(** * Table Layout plugin for Orca Note: localisation helper and layout togglers

    A shallow embedding of [src/libs/l10n.ts] and [src/main.tsx].

    - JavaScript strings are modelled by [string]; the functions below only
      compare and copy characters, so the alphabet plays no role.
    - A JavaScript object used as a dictionary is a [gmap] over its own
      enumerable string keys.  [t] reads the translation tables by their
      own keys; [Realm.t] also follows the members they inherit from
      [Object.prototype] (names such as [constructor]).
    - The [orca] global is the host application.  Its registries and block
      store are read directly ([orca.state]); every call into its API is
      recorded, and the host's reaction to a call is a parameter of the
      development. *)

From Stdlib Require Import Ascii.
From stdpp Require Import gmap strings list pretty.

Set Warnings "-register-all".
Set Default Proof Using "Type".

(* ------------------------------------------------------------------ *)
(** ** String.prototype.replaceAll with a string pattern *)
(* ------------------------------------------------------------------ *)

(** [GetSubstitution] of ECMA-262, for a match found by a string pattern:
    there are no captures, so in the replacement text only [$$], [$&],
    [$`] and [$'] are special; [$1], [$<] and a lone [$] are copied.
    [matched] is the text matched, [before] and [after] the parts of the
    subject string around the match. *)
Fixpoint GetSubstitution (matched before after template : string) : string :=
  match template with
  | EmptyString => EmptyString
  | String c tl =>
      if Ascii.eqb c "$"%char then
        match tl with
        | EmptyString => "$"
        | String d rest =>
            if Ascii.eqb d "$"%char then
              String "$"%char (GetSubstitution matched before after rest)
            else if Ascii.eqb d "&"%char then
              matched +:+ GetSubstitution matched before after rest
            else if Ascii.eqb d "`"%char then
              before +:+ GetSubstitution matched before after rest
            else if Ascii.eqb d "'"%char then
              after +:+ GetSubstitution matched before after rest
            else String "$"%char (GetSubstitution matched before after tl)
        end
      else String c (GetSubstitution matched before after tl)
  end.

(** The text after the first [n] characters. *)
Fixpoint string_drop (n : nat) (s : string) : string :=
  match n, s with
  | O, _ => s
  | S _, EmptyString => EmptyString
  | S k, String _ s' => string_drop k s'
  end.

(** The scan of [replaceAll] for a non-empty pattern: matches are found
    left to right and do not overlap (after a match at [p] the search
    resumes at [p + length pat]).  [before] is the text already passed,
    [skip] the number of characters of the current match still to pass,
    [rest] the text from the current position on. *)
Fixpoint replace_scan (pat repl before : string) (skip : nat) (rest : string)
  : string :=
  match rest with
  | EmptyString => EmptyString
  | String c rest' =>
      match skip with
      | S k =>
          replace_scan pat repl (before +:+ String c EmptyString) k rest'
      | O =>
          if String.prefix pat rest then
            GetSubstitution pat before (string_drop (String.length pat) rest) repl
              +:+ replace_scan pat repl (before +:+ String c EmptyString)
                    (String.length pat - 1) rest'
          else
            String c
              (replace_scan pat repl (before +:+ String c EmptyString) 0 rest')
      end
  end.

(** With the empty pattern there is a match before every character and
    one at the end. *)
Fixpoint replace_gaps (repl before rest : string) : string :=
  GetSubstitution EmptyString before rest repl +:+
  match rest with
  | EmptyString => EmptyString
  | String c rest' =>
      String c (replace_gaps repl (before +:+ String c EmptyString) rest')
  end.

(** [str.replaceAll(pat, repl)] for strings [pat] and [repl]. *)
Definition replaceAll (str pat repl : string) : string :=
  match pat with
  | EmptyString => replace_gaps repl EmptyString str
  | String _ _ => replace_scan pat repl EmptyString 0 str
  end.

(* ------------------------------------------------------------------ *)
(** ** src/libs/l10n.ts *)
(* ------------------------------------------------------------------ *)

(** [type Translations = { [locale: string]: { [key: string]: string } }] *)
Abbreviation Translations := (gmap string (gmap string string)).

(** The two module variables [_locale] and [_translations]. *)
Record L10N := {
  _locale : string;
  _translations : Translations;
}.

(** [let _locale = "en"; let _translations = {}] *)
Definition l10n_init : L10N :=
  {| _locale := "en"; _translations := ∅ |}.

Definition setupL10N (locale : string) (builtinTranslations : Translations)
  : L10N :=
  {| _locale := locale; _translations := builtinTranslations |}.

(** The template literal [`\${${name}}`]. *)
Definition placeholder (name : string) : string := "${" +:+ name +:+ "}".

(** [_translations[locale ?? _locale]?.[key] ?? key], the tables read by
    their own keys. *)
Definition template_of (g : L10N) (key : string) (locale : option string)
  : string :=
  default key (_translations g !! default (_locale g) locale ≫= (.!! key)).

(** [t(key, args?, locale?)] on own keys.  [args] is given by its
    [Object.entries], in that order; [None] stands for an absent (or null)
    argument. *)
Definition t (g : L10N) (key : string) (args : option (list (string * string)))
    (locale : option string) : string :=
  let template := template_of g key locale in
  match args with
  | None => template
  | Some entries =>
      foldl (λ str '(name, val), replaceAll str (placeholder name) val)
        template entries
  end.

(** *** Literal substitution, as the specification words it *)

(** Every occurrence of [pat], found left to right without overlap, is
    replaced by the text [val] itself. *)
Fixpoint literal_scan (pat val : string) (skip : nat) (rest : string) : string :=
  match rest with
  | EmptyString => EmptyString
  | String c rest' =>
      match skip with
      | S k => literal_scan pat val k rest'
      | O =>
          if String.prefix pat rest then
            val +:+ literal_scan pat val (String.length pat - 1) rest'
          else String c (literal_scan pat val 0 rest')
      end
  end.

Definition replace_literal (str pat val : string) : string :=
  literal_scan pat val 0 str.

(** All placeholders of [entries] substituted literally, entry by entry. *)
Definition substitute (entries : list (string * string)) (template : string)
  : string :=
  foldl (λ str '(name, val), replace_literal str (placeholder name) val)
    template entries.

(** [occurs pat s]: [pat] is a substring of [s]. *)
Definition occurs (pat s : string) : Prop := ∃ a b, s = a +:+ pat +:+ b.

(** A replacement text without any of the patterns [$$ $& $` $']. *)
Fixpoint plain (val : string) : bool :=
  match val with
  | EmptyString => true
  | String c tl =>
      match tl with
      | EmptyString => true
      | String d _ =>
          negb (Ascii.eqb c "$"%char &&
                (Ascii.eqb d "$"%char || Ascii.eqb d "&"%char ||
                 Ascii.eqb d "`"%char || Ascii.eqb d "'"%char))
          && plain tl
      end
  end.

(* ------------------------------------------------------------------ *)
(** ** JavaScript values and the host state read by the plugin *)
(* ------------------------------------------------------------------ *)

(** The values a block property can hold ([value?: any]).  Numbers are the
    integers; an object is the map of its own enumerable properties. *)
Inductive JsValue :=
| VUndefined
| VNull
| VBool (b : bool)
| VNum (n : Z)
| VStr (s : string)
| VArr (l : list JsValue)
| VObj (o : gmap string JsValue).

(** ToBoolean, as used by [||]. *)
Definition truthy (v : JsValue) : bool :=
  match v with
  | VUndefined | VNull => false
  | VBool b => b
  | VNum n => negb (n =? 0)%Z
  | VStr s => negb (String.eqb s EmptyString)
  | VArr _ | VObj _ => true
  end.

(** The own enumerable properties copied by an object spread [{...v}]:
    those of an object, the indices of an array or of a string (one per
    character of the model's string), nothing for the other primitives. *)
Definition spread (v : JsValue) : gmap string JsValue :=
  match v with
  | VObj o => o
  | VArr l => list_to_map (imap (λ i x, (pretty i, x)) l)
  | VStr s =>
      list_to_map
        (imap (λ i c, (pretty i, VStr (String c EmptyString)))
           (String.list_ascii_of_string s))
  | VUndefined | VNull | VBool _ | VNum _ => ∅
  end.

(** [v?.[key]] for a key that no primitive wrapper or array defines (such
    as [type]): only an object can have it. *)
Definition member (v : JsValue) (key : string) : JsValue :=
  match v with
  | VObj o => default VUndefined (o !! key)
  | _ => VUndefined
  end.

(** [v === s] for a string constant [s]. *)
Definition is_string (v : JsValue) (s : string) : bool :=
  match v with
  | VStr s' => String.eqb s' s
  | _ => false
  end.

(** [BlockProperty]: the fields the plugin reads or writes.  An absent
    [value] is [VUndefined]. *)
Record BlockProperty := {
  name : string;
  type : Z;
  value : JsValue;
}.

(** [Block]: only [properties] is read. *)
Record Block := {
  properties : list BlockProperty;
}.

(** An entry of [orca.state.commands]. *)
Record Command := {
  label : string;
}.

(** An entry of [orca.state.blockMenuCommands]. *)
Record BlockMenuCommand := {
  worksOnMultipleBlocks : bool;
}.

(** The part of [orca.state] the plugin reads. *)
Record OrcaState := {
  locale : string;
  commands : gmap string Command;
  blockMenuCommands : gmap string BlockMenuCommand;
  blocks : gmap Z Block;
}.

(** The three functions [load] registers as editor commands. *)
Inductive EditorCommandFn := SetMultiCol | SetSeries | ClearLayout.

(** A call into the host API.  The undo function of a registration is
    always [() => {}] and the render function of the menu registration is
    [render] below; neither is carried. *)
Inductive HostCall :=
| RegisterEditorCommand (cmd : string) (doFn : EditorCommandFn) (lbl : string)
| UnregisterEditorCommand (cmd : string)
| RegisterBlockMenuCommand (cmd : string) (multiple : bool)
| UnregisterBlockMenuCommand (cmd : string)
| InvokeEditorCommand (cmd : string) (cursor : JsValue) (args : list JsValue)
| InjectCSSResource (url role : string)
| RemoveCSSResources (role : string)
| ConsoleLog (msg : string).

(** How a call ends: with a value, or with an exception (a rejected
    promise when awaited). *)
Inductive Outcome (A : Type) :=
| Returned (a : A)
| Thrown (e : JsValue).
Arguments Returned {A} a.
Arguments Thrown {A} e.

(** The host: how [orca.state] changes with a call and how the call ends.
    Only the promise of [invokeEditorCommand] is awaited; the other API
    functions are taken to return normally. *)
Definition Host : Type := HostCall → OrcaState → OrcaState * Outcome JsValue.

(** The module variables of main.tsx ([let pluginName: string], undefined
    until [load] runs) and of l10n.ts. *)
Record Plugin := {
  pluginName : option string;
  l10n : L10N;
}.

Record World := {
  plugin : Plugin;
  orca : OrcaState;
}.

(** The result of running a piece of the plugin: how it ended, the world
    it left and the host calls it made, oldest first. *)
Record Run (A : Type) := {
  outcome : Outcome A;
  final : World;
  calls : list HostCall;
}.
Arguments outcome {A} r.
Arguments final {A} r.
Arguments calls {A} r.

Definition M (A : Type) : Type := World → Run A.

Global Instance M_ret : MRet M := λ A a w,
  {| outcome := Returned a; final := w; calls := [] |}.

Global Instance M_bind : MBind M := λ A B k m w,
  let r := m w in
  match outcome r with
  | Returned a =>
      let r' := k a (final r) in
      {| outcome := outcome r'; final := final r';
         calls := calls r ++ calls r' |}
  | Thrown e => {| outcome := Thrown e; final := final r; calls := calls r |}
  end.

Definition gets {A} (f : World → A) : M A := λ w,
  {| outcome := Returned (f w); final := w; calls := [] |}.

Definition modify_plugin (f : Plugin → Plugin) : M unit := λ w,
  {| outcome := Returned tt;
     final := {| plugin := f (plugin w); orca := orca w |};
     calls := [] |}.

Definition when (b : bool) (m : M unit) : M unit :=
  if b then m else mret tt.

(** The elements built by the JSX of the menu. *)
Inductive Element :=
| MenuText (preIcon : option string) (title : string)
    (onClick : option (M unit)) (children : list Element)
| Menu (children : list Element).

(* ------------------------------------------------------------------ *)
(** ** src/main.tsx *)
(* ------------------------------------------------------------------ *)

Section plugin.
(** The host application. *)
Variable host : Host.
(** [import zhCN from "./translations/zhCN"]: the built-in table. *)
Variable zhCN : gmap string string.

(** A synchronous API function: the call is made, the host reacts, the
    plugin goes on. *)
Definition host_call (c : HostCall) : M unit := λ w,
  {| outcome := Returned tt;
     final := {| plugin := plugin w; orca := (host c (orca w)).1 |};
     calls := [c] |}.

(** [await orca.commands.invokeEditorCommand(...)]: a rejection is
    thrown at the await. *)
Definition host_await (c : HostCall) : M JsValue := λ w,
  {| outcome := (host c (orca w)).2;
     final := {| plugin := plugin w; orca := (host c (orca w)).1 |};
     calls := [c] |}.

(** [pluginName] inside a template literal. *)
Definition name_text (p : Plugin) : string :=
  default "undefined" (pluginName p).

(** [`${pluginName}suffix`] *)
Definition plugin_id (suffix : string) : M string :=
  gets (λ w, name_text (plugin w) +:+ suffix).

(** [t(key)] on the current module variables of l10n.ts. *)
Definition tr (key : string) : M string :=
  gets (λ w, t (l10n (plugin w)) key None None).

Definition getBlockAttr (st : OrcaState) (blockId : Z) : JsValue :=
  let block := blocks st !! blockId in
  let attrProp :=
    block ≫= λ b, find (λ p, String.eqb (name p) "_attr") (properties b) in
  let v := from_option value VUndefined attrProp in
  if truthy v then v else VObj ∅.

(** [[{ name: "_attr", value: attr, type: 0 }]] *)
Definition attr_property (attr : gmap string JsValue) : JsValue :=
  VArr [VObj (<["name" := VStr "_attr"]>
               (<["value" := VObj attr]> (<["type" := VNum 0]> ∅)))].

Definition setProperties (blockId : Z) (attr : gmap string JsValue)
  : HostCall :=
  InvokeEditorCommand "core.editor.setProperties" VNull
    [VArr [VNum blockId]; attr_property attr].

Definition deleteProperties (blockId : Z) : HostCall :=
  InvokeEditorCommand "core.editor.deleteProperties" VNull
    [VArr [VNum blockId]; VArr [VStr "_attr"]].

Definition setMultiCol (_editor : JsValue) (blockId : Z) : M JsValue :=
  cur ← gets (λ w, getBlockAttr (orca w) blockId);
  let attr := <["multi-col" := VNum 1]> (spread cur) in
  host_await (setProperties blockId attr);;
  mret VNull.

Definition setSeries (_editor : JsValue) (blockId : Z) : M JsValue :=
  cur ← gets (λ w, getBlockAttr (orca w) blockId);
  let attr := <["serie" := VNum 1]> (spread cur) in
  host_await (setProperties blockId attr);;
  mret VNull.

Definition clearLayout (_editor : JsValue) (blockId : Z) : M JsValue :=
  cur ← gets (λ w, getBlockAttr (orca w) blockId);
  let attr := delete "serie" (delete "multi-col" (spread cur)) in
  (if Nat.eqb (size attr) 0
   then host_await (deleteProperties blockId)
   else host_await (setProperties blockId attr));;
  mret VNull.

(** The [onClick] of a menu item. *)
Definition invoke_and_close (suffix : string) (blockId : Z) (close : M unit)
  : M unit :=
  cmd ← plugin_id suffix;
  host_await (InvokeEditorCommand cmd VNull [VNum blockId]);;
  close.

(** The [render] function of the block menu command.  It reads
    [orca.state.blocks] and the translations when it is called. *)
Definition render (w : World) (blockId _rootBlockId : Z) (close : M unit)
  : option Element :=
  match blocks (orca w) !! blockId with
  | None => None
  | Some block =>
      let repr :=
        from_option value VUndefined
          (find (λ p, String.eqb (name p) "_repr") (properties block)) in
      if negb (is_string (member repr "type") "table2") then None
      else
        let title key := t (l10n (plugin w)) key None None in
        Some
          (MenuText (Some "ti ti-layout-dashboard") (title "Table Layout") None
             [Menu
                [MenuText None (title "Multi-column")
                   (Some (invoke_and_close ".multi-col" blockId close)) [];
                 MenuText None (title "Series")
                   (Some (invoke_and_close ".series" blockId close)) [];
                 MenuText None (title "None")
                   (Some (invoke_and_close ".none" blockId close)) []]])
  end.

(** [orca.state.commands[`${pluginName}suffix`] == null] *)
Definition command_missing (suffix : string) : M bool :=
  cmd ← plugin_id suffix;
  gets (λ w, bool_decide (commands (orca w) !! cmd = None)).

Definition menu_missing (suffix : string) : M bool :=
  cmd ← plugin_id suffix;
  gets (λ w, bool_decide (blockMenuCommands (orca w) !! cmd = None)).

(** The guarded [registerEditorCommand] of [`${pluginName}suffix`] with
    the label [t(key)]. *)
Definition register (suffix : string) (doFn : EditorCommandFn) (key : string)
  : M unit :=
  missing ← command_missing suffix;
  when missing
    (cmd ← plugin_id suffix;
     lbl ← tr key;
     host_call (RegisterEditorCommand cmd doFn lbl)).

(** The guarded [registerBlockMenuCommand]; its [render] is the
    function above. *)
Definition register_menu (suffix : string) : M unit :=
  missing ← menu_missing suffix;
  when missing
    (cmd ← plugin_id suffix;
     host_call (RegisterBlockMenuCommand cmd false)).

Definition load (_name : string) : M unit :=
  modify_plugin (λ p, {| pluginName := Some _name; l10n := l10n p |});;
  loc ← gets (λ w, locale (orca w));
  modify_plugin (λ p,
    {| pluginName := pluginName p;
       l10n := setupL10N loc (<["zh-CN" := zhCN]> ∅) |});;
  register ".multi-col" SetMultiCol "Set Multi-column";;
  register ".series" SetSeries "Set Series";;
  register ".none" ClearLayout "Clear Layout";;
  register_menu ".menu";;
  css ← plugin_id "/dist/layouts.css";
  role ← gets (λ w, name_text (plugin w));
  host_call (InjectCSSResource css role);;
  msg ← plugin_id " loaded.";
  host_call (ConsoleLog msg).

Definition unload : M unit :=
  c1 ← plugin_id ".multi-col"; host_call (UnregisterEditorCommand c1);;
  c2 ← plugin_id ".series"; host_call (UnregisterEditorCommand c2);;
  c3 ← plugin_id ".none"; host_call (UnregisterEditorCommand c3);;
  c4 ← plugin_id ".menu"; host_call (UnregisterBlockMenuCommand c4);;
  role ← gets (λ w, name_text (plugin w));
  host_call (RemoveCSSResources role);;
  msg ← plugin_id " unloaded.";
  host_call (ConsoleLog msg).

End plugin.

(* ------------------------------------------------------------------ *)
(** ** Vocabulary of the specification *)
(* ------------------------------------------------------------------ *)

(** The block exists and its first property called [nm] holds [v]. *)
Definition property_is (st : OrcaState) (blockId : Z) (nm : string)
    (v : JsValue) : Prop :=
  ∃ b pre p post,
    blocks st !! blockId = Some b ∧
    properties b = pre ++ p :: post ∧
    Forall (λ q, name q ≠ nm) pre ∧
    name p = nm ∧ value p = v.

(** The identifier resolves to no block, or to a block without a property
    called [nm]. *)
Definition property_absent (st : OrcaState) (blockId : Z) (nm : string)
  : Prop :=
  ∀ b, blocks st !! blockId = Some b →
       Forall (λ q, name q ≠ nm) (properties b).

(** The current [_attr] map of a block: the stored map, or the empty map
    if there is none. *)
Definition attr_map (st : OrcaState) (blockId : Z) (o : gmap string JsValue)
  : Prop :=
  property_is st blockId "_attr" (VObj o) ∨
  (property_absent st blockId "_attr" ∧ o = ∅).

(** [_repr.type] of the block is ["table2"]. *)
Definition repr_is_table2 (st : OrcaState) (blockId : Z) : Prop :=
  ∃ v, property_is st blockId "_repr" v ∧ member v "type" = VStr "table2".

Definition is_registration (c : HostCall) : bool :=
  match c with
  | RegisterEditorCommand _ _ _ | RegisterBlockMenuCommand _ _ => true
  | _ => false
  end.

Definition is_unregistration (c : HostCall) : bool :=
  match c with
  | UnregisterEditorCommand _ | UnregisterBlockMenuCommand _ => true
  | _ => false
  end.

Definition is_injection (c : HostCall) : bool :=
  match c with
  | InjectCSSResource _ _ => true
  | _ => false
  end.

Definition is_invocation (c : HostCall) : bool :=
  match c with
  | InvokeEditorCommand _ _ _ => true
  | _ => false
  end.

(** What the plugin documentation says of the registries: a registered
    command is found in [orca.state.commands] (a block menu command in
    [orca.state.blockMenuCommands]) under its identifier, and entries stay
    until they are unregistered. *)
Record registry_contract (host : Host) : Prop := {
  command_added : ∀ cmd f l st,
    is_Some (commands (host (RegisterEditorCommand cmd f l) st).1 !! cmd);
  menu_added : ∀ cmd m st,
    is_Some (blockMenuCommands (host (RegisterBlockMenuCommand cmd m) st).1 !! cmd);
  commands_kept : ∀ c st k,
    is_unregistration c = false →
    is_Some (commands st !! k) → is_Some (commands (host c st).1 !! k);
  menus_kept : ∀ c st k,
    is_unregistration c = false →
    is_Some (blockMenuCommands st !! k) →
    is_Some (blockMenuCommands (host c st).1 !! k);
}.

(* ------------------------------------------------------------------ *)
(** ** A sample host *)
(* ------------------------------------------------------------------ *)

(** A small host that follows the plugin documentation, to run the plugin
    on concrete states: registrations fill the registries,
    [core.editor.setProperties] and [core.editor.deleteProperties] edit the
    properties of the listed blocks, any other command is rejected. *)

Definition with_commands (st : OrcaState) (c : gmap string Command)
  : OrcaState :=
  {| locale := locale st; commands := c;
     blockMenuCommands := blockMenuCommands st; blocks := blocks st |}.

Definition with_menus (st : OrcaState) (m : gmap string BlockMenuCommand)
  : OrcaState :=
  {| locale := locale st; commands := commands st;
     blockMenuCommands := m; blocks := blocks st |}.

Definition with_blocks (st : OrcaState) (b : gmap Z Block) : OrcaState :=
  {| locale := locale st; commands := commands st;
     blockMenuCommands := blockMenuCommands st; blocks := b |}.

Definition property_of_value (v : JsValue) : option BlockProperty :=
  match v with
  | VObj o =>
      match o !! "name", o !! "type" with
      | Some (VStr n), Some (VNum k) =>
          Some {| name := n; type := k;
                  value := default VUndefined (o !! "value") |}
      | _, _ => None
      end
  | _ => None
  end.

Fixpoint set_property (p : BlockProperty) (ps : list BlockProperty)
  : list BlockProperty :=
  match ps with
  | [] => [p]
  | q :: ps' =>
      if String.eqb (name q) (name p) then p :: ps'
      else q :: set_property p ps'
  end.

Definition delete_property (nm : string) (ps : list BlockProperty)
  : list BlockProperty :=
  List.filter (λ q, negb (String.eqb (name q) nm)) ps.

Definition edit_block (f : list BlockProperty → list BlockProperty)
    (bs : gmap Z Block) (target : JsValue) : gmap Z Block :=
  match target with
  | VNum b => alter (λ blk, {| properties := f (properties blk) |}) b bs
  | _ => bs
  end.

Definition sample_invoke (cmd : string) (args : list JsValue) (st : OrcaState)
  : OrcaState * Outcome JsValue :=
  match args with
  | [VArr ids; VArr items] =>
      if String.eqb cmd "core.editor.setProperties" then
        let f ps := foldl (λ acc v, from_option (λ p, set_property p acc) acc
                                      (property_of_value v)) ps items in
        (with_blocks st (foldl (edit_block f) (blocks st) ids),
         Returned VUndefined)
      else if String.eqb cmd "core.editor.deleteProperties" then
        let f ps := foldl (λ acc v, match v with
                                    | VStr nm => delete_property nm acc
                                    | _ => acc
                                    end) ps items in
        (with_blocks st (foldl (edit_block f) (blocks st) ids),
         Returned VUndefined)
      else (st, Thrown (VStr "unknown command"))
  | _ => (st, Thrown (VStr "unknown command"))
  end.

Definition sample_host : Host := λ c st,
  match c with
  | RegisterEditorCommand cmd _ lbl =>
      (with_commands st (<[cmd := {| label := lbl |}]> (commands st)),
       Returned VUndefined)
  | UnregisterEditorCommand cmd =>
      (with_commands st (delete cmd (commands st)), Returned VUndefined)
  | RegisterBlockMenuCommand cmd m =>
      (with_menus st
         (<[cmd := {| worksOnMultipleBlocks := m |}]> (blockMenuCommands st)),
       Returned VUndefined)
  | UnregisterBlockMenuCommand cmd =>
      (with_menus st (delete cmd (blockMenuCommands st)), Returned VUndefined)
  | InvokeEditorCommand cmd _ args => sample_invoke cmd args st
  | InjectCSSResource _ _ | RemoveCSSResources _ | ConsoleLog _ =>
      (st, Returned VUndefined)
  end.

(** A state with a table block 7 carrying [_attr = {multi-col: 1,
    customKey: "x"}], a table block 8 carrying [_attr = {multi-col: 1}], a
    table block 9 without [_attr], a text block 10 and a table block 11
    carrying [_attr = {serie: 1}]. *)
Definition repr_of (ty : string) : BlockProperty :=
  {| name := "_repr"; type := 0; value := VObj (<["type" := VStr ty]> ∅) |}.

Definition sample_state : OrcaState :=
  {| locale := "zh-CN";
     commands := ∅;
     blockMenuCommands := ∅;
     blocks :=
       <[7%Z := {| properties :=
                    [repr_of "table2";
                     {| name := "_attr"; type := 0;
                        value := VObj (<["multi-col" := VNum 1]>
                                         (<["customKey" := VStr "x"]> ∅)) |}] |}]>
       (<[8%Z := {| properties :=
                    [repr_of "table2";
                     {| name := "_attr"; type := 0;
                        value := VObj (<["multi-col" := VNum 1]> ∅) |}] |}]>
       (<[9%Z := {| properties := [repr_of "table2"] |}]>
       (<[10%Z := {| properties := [repr_of "text"] |}]>
       (<[11%Z := {| properties :=
                    [repr_of "table2";
                     {| name := "_attr"; type := 0;
                        value := VObj (<["serie" := VNum 1]> ∅) |}] |}]>
          ∅)))) |}.

Definition sample_world : World :=
  {| plugin := {| pluginName := None; l10n := l10n_init |};
     orca := sample_state |}.

Definition sample_zhCN : gmap string string :=
  <["Multi-column" := "duo lan"]> (<["Series" := "xi lie"]> ∅).

(** What one awaited command invocation followed by [return null] leaves:
    the call, the host's reaction to it, and null unless the host rejects. *)
Definition invoked (host : Host) (c : HostCall) (w : World) : Run JsValue :=
  {| outcome := match (host c (orca w)).2 with
                | Returned _ => Returned VNull
                | Thrown e => Thrown e
                end;
     final := {| plugin := plugin w; orca := (host c (orca w)).1 |};
     calls := [c] |}.

(** A run that consists of exactly one command invocation: nothing else is
    called, the module variables are untouched and the host state is what
    the host made of that one call. *)
Definition single_invocation (host : Host) (w : World) (r : Run JsValue)
  : Prop :=
  ∃ cmd cursor args,
    calls r = [InvokeEditorCommand cmd cursor args] ∧
    plugin (final r) = plugin w ∧
    orca (final r) = (host (InvokeEditorCommand cmd cursor args) (orca w)).1.

Definition sample_l10n : L10N :=
  setupL10N "zh-CN" (<["zh-CN" := <["Hi ${n}" := "Ni hao ${n}"]> ∅]> ∅).

(** Every identifier found in the registries of [st] is found in those of
    [st']. *)
Definition registries_grow (st st' : OrcaState) : Prop :=
  (∀ k, is_Some (commands st !! k) → is_Some (commands st' !! k)) ∧
  (∀ k, is_Some (blockMenuCommands st !! k) →
        is_Some (blockMenuCommands st' !! k)).

(* ------------------------------------------------------------------ *)
(** ** Lookups through the prototype chain *)
(* ------------------------------------------------------------------ *)

(** [_translations] and its tables are plain objects, so
    [_translations[locale]?.[key]] also finds what they inherit from
    [Object.prototype] (under names such as [constructor] or [toString]).
    What is inherited belongs to the JavaScript library, not to the plugin:
    it is a parameter here.  [t] above is the function on own keys;
    [Realm.t] below follows the source on every name. *)

(** A value that is neither undefined nor null: a string, or something
    else (a function, an object, a number). *)
Inductive Looked (Other : Type) :=
| LString (s : string)
| LOther (f : Other).
Arguments LString {Other} s.
Arguments LOther {Other} f.

(** How the evaluation of an expression ends: with undefined or null, with
    a value, or with an exception. *)
Inductive Lookup (Other : Type) :=
| Nullish
| Found (v : Looked Other)
| Raises (e : Other).
Arguments Nullish {Other}.
Arguments Found {Other} v.
Arguments Raises {Other} e.

Module Realm.
Section realm.
(** The values of the library that are no strings. *)
Variable Other : Type.
(** [o[name]] for a name that the plain object [o] does not own: the
    member of [Object.prototype]. *)
Variable proto : string → Lookup Other.
(** [v[name]] for a value [v] that is none of the tables. *)
Variable member : Looked Other → string → Lookup Other.
(** The [reduce] over a non-empty list of entries when the template is no
    string (in the standard library: a TypeError, for want of a
    [replaceAll] method). *)
Variable reduce_other : Other → list (string * string) → Lookup Other.

(** [table[key]] *)
Definition table_entry (table : gmap string string) (key : string)
  : Lookup Other :=
  match table !! key with
  | Some s => Found (LString s)
  | None => proto key
  end.

(** [_translations[name]?.[key]] *)
Definition translation (g : L10N) (name key : string) : Lookup Other :=
  match _translations g !! name with
  | Some table => table_entry table key
  | None =>
      match proto name with
      | Found v => member v key
      | Nullish => Nullish
      | Raises e => Raises e
      end
  end.

(** [_translations[locale ?? _locale]?.[key] ?? key] *)
Definition resolve (g : L10N) (key : string) (locale : option string)
  : Lookup Other :=
  match translation g (default (_locale g) locale) key with
  | Nullish => Found (LString key)
  | Found v => Found v
  | Raises e => Raises e
  end.

(** [t(key, args?, locale?)] *)
Definition t (g : L10N) (key : string) (args : option (list (string * string)))
    (locale : option string) : Lookup Other :=
  match resolve g key locale with
  | Found template =>
      match args with
      | None => Found template
      | Some entries =>
          match template, entries with
          | LString s, _ =>
              Found
                (LString
                   (foldl (λ str '(name, val),
                             replaceAll str (placeholder name) val)
                      s entries))
          | LOther f, [] => Found template
          | LOther f, _ :: _ => reduce_other f entries
          end
      end
  | Nullish => Nullish
  | Raises e => Raises e
  end.

(** Neither the locale nor the key reaches an inherited member: the table
    of the locale owns the key or [Object.prototype] has no member of that
    name, and without a table [Object.prototype] has no member called like
    the locale. *)
Definition own_names (g : L10N) (key : string) (locale : option string)
  : Prop :=
  match _translations g !! default (_locale g) locale with
  | Some table => is_Some (table !! key) ∨ proto key = Nullish
  | None => proto (default (_locale g) locale) = Nullish
  end.
End realm.
End Realm.

(** A fragment of the standard library, for examples: the members of
    [Object.prototype], the static methods of [Object], and of a function
    its [name], [length], [constructor], [call], [apply], [bind] and what it
    inherits.  Which number a [length] is, is not tracked. *)
Inductive Builtin :=
| ObjectFunction
| ObjectPrototype
| FunctionValue (fname : string)
| ANumber
| TypeError.

Definition sample_proto (nm : string) : Lookup Builtin :=
  if String.eqb nm "constructor" then Found (LOther ObjectFunction)
  else if String.eqb nm "__proto__" then Found (LOther ObjectPrototype)
  else if existsb (String.eqb nm)
            ["toString"; "toLocaleString"; "valueOf"; "hasOwnProperty";
             "isPrototypeOf"; "propertyIsEnumerable"; "__defineGetter__";
             "__defineSetter__"; "__lookupGetter__"; "__lookupSetter__"]
  then Found (LOther (FunctionValue nm))
  else Nullish.

Definition function_member (fname key : string) : Lookup Builtin :=
  if String.eqb key "name" then Found (LString fname)
  else if String.eqb key "length" then Found (LOther ANumber)
  else if String.eqb key "constructor"
  then Found (LOther (FunctionValue "Function"))
  else if existsb (String.eqb key) ["call"; "apply"; "bind"]
  then Found (LOther (FunctionValue key))
  else if existsb (String.eqb key) ["caller"; "arguments"]
  then Raises TypeError
  else if String.eqb key "__proto__"
  then Found (LOther (FunctionValue EmptyString))
  else sample_proto key.

Definition sample_member (v : Looked Builtin) (key : string)
  : Lookup Builtin :=
  match v with
  | LOther ObjectFunction =>
      if String.eqb key "prototype" then Found (LOther ObjectPrototype)
      else if existsb (String.eqb key)
                ["assign"; "create"; "defineProperties"; "defineProperty";
                 "entries"; "freeze"; "fromEntries";
                 "getOwnPropertyDescriptor"; "getOwnPropertyDescriptors";
                 "getOwnPropertyNames"; "getOwnPropertySymbols";
                 "getPrototypeOf"; "hasOwn"; "is"; "isExtensible";
                 "isFrozen"; "isSealed"; "keys"; "preventExtensions";
                 "seal"; "setPrototypeOf"; "values"]
      then Found (LOther (FunctionValue key))
      else function_member "Object" key
  | LOther (FunctionValue fname) => function_member fname key
  | LOther ObjectPrototype =>
      if String.eqb key "__proto__" then Nullish else sample_proto key
  | LOther ANumber | LOther TypeError | LString _ => Nullish
  end.

Definition sample_reduce (f : Builtin) (entries : list (string * string))
  : Lookup Builtin :=
  Raises TypeError.

(** [t] of the source in that library. *)
Definition sample_t :=
  Realm.t Builtin sample_proto sample_member sample_reduce.

(* ------------------------------------------------------------------ *)
(** ** The second entry point *)
(* ------------------------------------------------------------------ *)

(** The shorter [load] / [unload] pair that follows in main.tsx: it sets up
    the localisation and logs, and registers nothing. *)
Module Minimal.

Definition load (host : Host) (zhCN : gmap string string) (_name : string)
  : M unit :=
  modify_plugin (λ p, {| pluginName := Some _name; l10n := l10n p |});;
  loc ← gets (λ w, locale (orca w));
  modify_plugin (λ p,
    {| pluginName := pluginName p;
       l10n := setupL10N loc (<["zh-CN" := zhCN]> ∅) |});;
  msg ← plugin_id " loaded.";
  host_call host (ConsoleLog msg).

Definition unload (host : Host) : M unit :=
  msg ← plugin_id " unloaded.";
  host_call host (ConsoleLog msg).

End Minimal.

(* ------------------------------------------------------------------ *)
(** ** Further vocabulary *)
(* ------------------------------------------------------------------ *)

(** [occurs], decided. *)
Fixpoint occursb (pat s : string) : bool :=
  String.prefix pat s ||
  match s with
  | EmptyString => false
  | String _ s' => occursb pat s'
  end.

(** A text without the character [$]. *)
Fixpoint dollar_free (s : string) : bool :=
  match s with
  | EmptyString => true
  | String c s' => negb (Ascii.eqb c "$"%char) && dollar_free s'
  end.

(** The segments [segs] with [sep] between them. *)
Fixpoint string_join (sep : string) (segs : list string) : string :=
  match segs with
  | [] => EmptyString
  | [s] => s
  | s :: rest => s +:+ sep +:+ string_join sep rest
  end.

(** A stored value that is no object and has no own enumerable property:
    undefined, null, a boolean, a number or the empty string. *)
Definition keyless (v : JsValue) : bool :=
  match v with
  | VUndefined | VNull | VBool _ | VNum _ => true
  | VStr s => String.eqb s EmptyString
  | VArr _ | VObj _ => false
  end.

(** What the plugin documentation says of the two property commands: when
    [core.editor.setProperties] resolves, the listed block, if it exists,
    holds the property written, and when [core.editor.deleteProperties]
    resolves it holds no property of that name. *)
Record attr_contract (host : Host) : Prop := {
  attr_stored : ∀ st blockId attr v,
    (host (setProperties blockId attr) st).2 = Returned v →
    is_Some (blocks st !! blockId) →
    property_is (host (setProperties blockId attr) st).1 blockId "_attr"
      (VObj attr);
  attr_deleted : ∀ st blockId v,
    (host (deleteProperties blockId) st).2 = Returned v →
    property_absent (host (deleteProperties blockId) st).1 blockId "_attr";
}.

(** The label [t(key)] that [load] computes once it has called
    [setupL10N(locale, { "zh-CN": zhCN })]. *)
Definition label_at (loc : string) (zhCN : gmap string string) (key : string)
  : string :=
  t (setupL10N loc (<["zh-CN" := zhCN]> ∅)) key None None.

(** The registrations [load] can make, in the order of the source. *)
Definition load_registrations (loc : string) (zhCN : gmap string string)
    (nm : string) : list HostCall :=
  [RegisterEditorCommand (nm +:+ ".multi-col") SetMultiCol
     (label_at loc zhCN "Set Multi-column");
   RegisterEditorCommand (nm +:+ ".series") SetSeries
     (label_at loc zhCN "Set Series");
   RegisterEditorCommand (nm +:+ ".none") ClearLayout
     (label_at loc zhCN "Clear Layout");
   RegisterBlockMenuCommand (nm +:+ ".menu") false].

(** Every host call of [unload], in the order of the source. *)
Definition unload_calls (nm : string) : list HostCall :=
  [UnregisterEditorCommand (nm +:+ ".multi-col");
   UnregisterEditorCommand (nm +:+ ".series");
   UnregisterEditorCommand (nm +:+ ".none");
   UnregisterBlockMenuCommand (nm +:+ ".menu");
   RemoveCSSResources nm;
   ConsoleLog (nm +:+ " unloaded.")].

(** The call that undoes a registration or an injection. *)
Definition undone_by (c : HostCall) : option HostCall :=
  match c with
  | RegisterEditorCommand cmd _ _ => Some (UnregisterEditorCommand cmd)
  | RegisterBlockMenuCommand cmd _ => Some (UnregisterBlockMenuCommand cmd)
  | InjectCSSResource _ role => Some (RemoveCSSResources role)
  | _ => None
  end.

(** The sample state with two more blocks: block 12 stores the number 5
    under [_attr], block 13 the map [{customKey: "x"}]. *)
Definition sample_state_more : OrcaState :=
  with_blocks sample_state
    (<[12%Z := {| properties :=
                   [repr_of "table2";
                    {| name := "_attr"; type := 3; value := VNum 5 |}] |}]>
    (<[13%Z := {| properties :=
                   [repr_of "table2";
                    {| name := "_attr"; type := 0;
                       value := VObj (<["customKey" := VStr "x"]> ∅) |}] |}]>
       (blocks sample_state))).

Definition sample_world_more : World :=
  {| plugin := {| pluginName := None; l10n := l10n_init |};
     orca := sample_state_more |}.

(* ------------------------------------------------------------------ *)
(** ** Properties of the localisation helper *)
(* ------------------------------------------------------------------ *)

Section l10n_facts.
Implicit Types (s pat val str : string) (g : L10N).

Lemma append_cons c s1 s2 : String c s1 +:+ s2 = String c (s1 +:+ s2).
Proof. reflexivity. Qed.

Lemma placeholder_cons nm :
  placeholder nm = String "$"%char (String "{"%char (nm +:+ "}")).
Proof. reflexivity. Qed.

Lemma prefix_append pat s : String.prefix pat (pat +:+ s) = true.
Proof.
  induction pat as [|c pat IH]; [by destruct s |].
  rewrite append_cons. simpl. by destruct (ascii_dec c c).
Qed.

Lemma prefix_split pat s :
  String.prefix pat s = true → ∃ b, s = pat +:+ b.
Proof.
  revert s. induction pat as [|c pat IH]; intros s H.
  - by exists s.
  - destruct s as [|d s]; simpl in H; [done |].
    destruct (ascii_dec c d) as [->|]; [|done].
    destruct (IH _ H) as [b ->]. by exists b.
Qed.

(** A plain replacement text is inserted as it is. *)
Lemma GetSubstitution_plain matched before after val :
  plain val = true → GetSubstitution matched before after val = val.
Proof.
  induction val as [|c tl IH]; [done |].
  intros Hp. destruct tl as [|d rest].
  { simpl. by destruct (Ascii.eqb c "$"%char) eqn:E;
      [apply Ascii.eqb_eq in E as ->|]. }
  cbn [plain] in Hp. apply andb_true_iff in Hp as [Hc Htl].
  specialize (IH Htl). cbn [GetSubstitution] in *.
  destruct (Ascii.eqb c "$"%char) eqn:Ec.
  - apply Ascii.eqb_eq in Ec as ->.
    simpl in Hc. apply negb_true_iff in Hc.
    destruct (Ascii.eqb d "$"%char); [done |].
    destruct (Ascii.eqb d "&"%char); [done |].
    destruct (Ascii.eqb d "`"%char); [done |].
    destruct (Ascii.eqb d "'"%char); [done |].
    by rewrite IH.
  - by rewrite IH.
Qed.

Lemma replace_scan_plain pat val before skip rest :
  plain val = true →
  replace_scan pat val before skip rest = literal_scan pat val skip rest.
Proof.
  intros Hp. revert before skip.
  induction rest as [|c rest IH]; intros before skip; [done |].
  cbn [replace_scan literal_scan]. destruct skip as [|k]; [|apply IH].
  destruct (String.prefix pat (String c rest)).
  - by rewrite GetSubstitution_plain, IH.
  - by rewrite IH.
Qed.

(** For a plain value, [replaceAll] on a placeholder is the literal
    replacement. *)
Lemma replaceAll_plain str nm val :
  plain val = true →
  replaceAll str (placeholder nm) val = replace_literal str (placeholder nm) val.
Proof.
  intros Hp. rewrite placeholder_cons.
  apply (replace_scan_plain _ _ _ _ _ Hp).
Qed.

Lemma t_substitute g key entries locale :
  forallb (λ e, plain e.2) entries = true →
  t g key (Some entries) locale = substitute entries (template_of g key locale).
Proof.
  unfold t, substitute. generalize (template_of g key locale).
  induction entries as [|[nm val] entries IH]; intros tpl Hp; [done |].
  simpl in Hp. apply andb_true_iff in Hp as [Hv Hp].
  cbn [foldl]. rewrite replaceAll_plain by done. by apply IH.
Qed.

(** The recursion equations of the literal replacement. *)
Lemma literal_scan_skip pat val p s :
  literal_scan pat val (String.length p) (p +:+ s) = literal_scan pat val 0 s.
Proof. induction p as [|c p IH]; [done |]. rewrite append_cons. apply IH. Qed.

Lemma replace_literal_empty pat val :
  replace_literal EmptyString pat val = EmptyString.
Proof. done. Qed.

Lemma replace_literal_match c pat val s :
  replace_literal (String c pat +:+ s) (String c pat) val
  = val +:+ replace_literal s (String c pat) val.
Proof.
  unfold replace_literal. rewrite append_cons. cbn [literal_scan].
  rewrite <- append_cons, prefix_append.
  replace (String.length (String c pat) - 1) with (String.length pat)
    by (cbn [String.length]; lia).
  by rewrite literal_scan_skip.
Qed.

Lemma replace_literal_step c pat val s :
  String.prefix pat (String c s) = false →
  replace_literal (String c s) pat val = String c (replace_literal s pat val).
Proof. unfold replace_literal. cbn [literal_scan]. by intros ->. Qed.

(** Where the pattern does not occur nothing changes. *)
Lemma replace_literal_absent pat val s :
  ¬ occurs pat s → replace_literal s pat val = s.
Proof.
  induction s as [|c s IH]; intros Hn; [done |].
  destruct (String.prefix pat (String c s)) eqn:E.
  - destruct Hn. apply prefix_split in E as [b E].
    exists EmptyString, b. by rewrite E.
  - rewrite replace_literal_step by done. rewrite IH; [done |].
    intros (a & b & ->). apply Hn. by exists (String c a), b.
Qed.

Lemma substitute_absent entries key :
  Forall (λ e, ¬ occurs (placeholder e.1) key) entries →
  substitute entries key = key.
Proof.
  unfold substitute. induction 1 as [|[nm val] entries Hn _ IH]; [done |].
  cbn [foldl]. by rewrite replace_literal_absent.
Qed.

Lemma template_of_entry g key locale tbl tpl :
  _translations g !! default (_locale g) locale = Some tbl →
  tbl !! key = Some tpl →
  template_of g key locale = tpl.
Proof. unfold template_of. intros -> Hk. simpl. by rewrite Hk. Qed.

Lemma template_of_missing g key locale :
  (_translations g !! default (_locale g) locale = None ∨
   ∃ tbl, _translations g !! default (_locale g) locale = Some tbl ∧
          tbl !! key = None) →
  template_of g key locale = key.
Proof.
  unfold template_of. intros [->|(tbl & -> & Hk)]; [done |].
  simpl. by rewrite Hk.
Qed.
End l10n_facts.

Example t_hello_other :
  t l10n_init "Hello ${name}" (Some [("name", "${other}")]) None
  = "Hello ${other}".
Proof. reflexivity. Qed.

(** A later entry does rewrite what an earlier one inserted. *)
Example t_later_entry :
  t l10n_init "${a}" (Some [("a", "${b}"); ("b", "x")]) None = "x".
Proof. reflexivity. Qed.

Example t_special_patterns :
  t l10n_init "${p}!" (Some [("p", "a$$b$&c$'d$`e$1")]) None
  = "a$b${p}c!de$1!".
Proof. reflexivity. Qed.

(* ------------------------------------------------------------------ *)
(** ** The lookup on every name *)
(* ------------------------------------------------------------------ *)

Section realm_facts.
Variable Other : Type.
Variable proto : string → Lookup Other.
Variable member : Looked Other → string → Lookup Other.
Variable reduce_other : Other → list (string * string) → Lookup Other.
Implicit Types (g : L10N) (key : string) (locale : option string).

(** Where no inherited member is reached, the source's [t] is the
    function on own keys. *)
Lemma realm_t_own g key args locale :
  Realm.own_names Other proto g key locale →
  Realm.t Other proto member reduce_other g key args locale
  = Found (LString (t g key args locale)).
Proof.
  unfold Realm.own_names, Realm.t, Realm.resolve, Realm.translation,
    Realm.table_entry, t, template_of.
  destruct (_translations g !! default (_locale g) locale) as [tbl|]; simpl.
  - destruct (tbl !! key) as [tpl|]; simpl.
    + intros _. by destruct args.
    + intros [[? [=]]| ->]. by destruct args.
  - intros ->. by destruct args.
Qed.

(** Once the template is a string the entries are folded over it. *)
Lemma realm_t_string g key entries locale tpl :
  Realm.t Other proto member reduce_other g key None locale
  = Found (LString tpl) →
  Realm.t Other proto member reduce_other g key (Some entries) locale
  = Found (LString
             (foldl (λ str '(name, val), replaceAll str (placeholder name) val)
                tpl entries)).
Proof.
  unfold Realm.t.
  destruct (Realm.resolve Other proto member g key locale) as [|[s|f]|e];
    try done.
  by intros [= ->].
Qed.

(** C1, as amended.  For arguments whose values hold none of the
    replacement patterns [$$ $& $` $']: if the table of the locale owns an
    entry for the key, [t] returns that entry's template with every
    occurrence of each placeholder replaced by the argument's value, entry by
    entry; if there is no table for the locale and [Object.prototype] has
    no member called like the locale, or the table has no entry for the key
    and [Object.prototype] has no member called like the key, [t] returns
    the key with the same substitution applied to it, which is the key
    itself when no arguments are passed or none of the placeholders occurs
    in the key.  In these cases [t] raises nothing and returns a string. *)
Theorem t_lookup g key locale (entries : list (string * string)) :
  forallb (λ e, plain e.2) entries = true →
  (∀ tbl tpl,
     _translations g !! default (_locale g) locale = Some tbl →
     tbl !! key = Some tpl →
     Realm.t Other proto member reduce_other g key None locale
     = Found (LString tpl) ∧
     Realm.t Other proto member reduce_other g key (Some entries) locale
     = Found (LString (substitute entries tpl))) ∧
  (((_translations g !! default (_locale g) locale = None ∧
     proto (default (_locale g) locale) = Nullish) ∨
    ∃ tbl, _translations g !! default (_locale g) locale = Some tbl ∧
           tbl !! key = None ∧ proto key = Nullish) →
   Realm.t Other proto member reduce_other g key None locale
   = Found (LString key) ∧
   Realm.t Other proto member reduce_other g key (Some entries) locale
   = Found (LString (substitute entries key)) ∧
   (Forall (λ e, ¬ occurs (placeholder e.1) key) entries →
    Realm.t Other proto member reduce_other g key (Some entries) locale
    = Found (LString key))).
Proof.
  intros Hp. split.
  - intros tbl tpl Ht Hk.
    assert (Realm.own_names Other proto g key locale) as Hown.
    { unfold Realm.own_names. rewrite Ht. left. by eexists. }
    rewrite !realm_t_own by done. rewrite t_substitute by done.
    unfold t. by rewrite (template_of_entry _ _ _ _ _ Ht Hk).
  - intros Hm.
    assert (Realm.own_names Other proto g key locale) as Hown.
    { unfold Realm.own_names.
      destruct Hm as [[-> Hl]|(tbl & -> & _ & Hk)]; [done | by right]. }
    assert (template_of g key locale = key) as Ht.
    { apply template_of_missing.
      destruct Hm as [[Hn _]|(tbl & Hs & Hk & _)]; [by left | right; eauto]. }
    rewrite !realm_t_own by done. rewrite t_substitute by done.
    unfold t. rewrite Ht.
    split_and!; [done | done |]. intros Ha. by rewrite substitute_absent.
Qed.
End realm_facts.

Lemma t_lookup_witness :
  sample_t sample_l10n "Hi ${n}" (Some [("n", "Li")]) None
  = Found (LString "Ni hao Li") ∧
  sample_t sample_l10n "Bye ${n}" (Some [("n", "Li")]) (Some "fr")
  = Found (LString "Bye Li").
Proof.
  destruct (t_lookup Builtin sample_proto sample_member sample_reduce
              sample_l10n "Hi ${n}" None [("n", "Li")] eq_refl)
    as [Hentry _].
  destruct (t_lookup Builtin sample_proto sample_member sample_reduce
              sample_l10n "Bye ${n}" (Some "fr") [("n", "Li")] eq_refl)
    as [_ Hmissing].
  split.
  - apply (Hentry (<["Hi ${n}" := "Ni hao ${n}"]> ∅) "Ni hao ${n}");
      reflexivity.
  - apply Hmissing. left. split; reflexivity.
Defined.

(** On inherited names the source leaves the table: the locale
    [constructor] reaches the function [Object], whose [name] is a string,
    and the key [toString] reaches a function, on which the substitution
    of arguments fails. *)
Example t_inherited_locale :
  sample_t l10n_init "name" None (Some "constructor")
  = Found (LString "Object").
Proof. reflexivity. Qed.

Example t_inherited_key :
  sample_t (setupL10N "zh-CN" (<["zh-CN" := ∅]> ∅)) "toString" None None
  = Found (LOther (FunctionValue "toString")) ∧
  sample_t (setupL10N "zh-CN" (<["zh-CN" := ∅]> ∅)) "toString"
    (Some [("a", "b")]) None
  = Raises TypeError.
Proof. split; reflexivity. Qed.

(** C1 as stated fails: without a table for the locale a key that holds a
    placeholder is not returned unchanged when arguments are passed. *)
Lemma t_missing_entry_rewrites_key :
  ¬ (∀ (g : L10N) (key : string) (entries : list (string * string))
       (L : string),
       _translations g !! L = None →
       t g key (Some entries) (Some L) = key).
Proof.
  intros H.
  specialize (H l10n_init "Hi ${n}" [("n", "Li")] "fr" eq_refl).
  vm_compute in H. discriminate H.
Qed.

(** C8.  A value that holds a replacement pattern is not inserted as it
    is: [replaceAll] expands [$$] to [$] and [$&] to the placeholder. *)
Theorem t_value_pattern_expanded :
  t l10n_init "Price: ${p}" (Some [("p", "$$5")]) None = "Price: $5" ∧
  substitute [("p", "$$5")] "Price: ${p}" = "Price: $$5" ∧
  t l10n_init "Price: ${p}" (Some [("p", "$&")]) None = "Price: ${p}".
Proof. split_and!; reflexivity. Qed.

(* ------------------------------------------------------------------ *)
(** ** Reading block properties *)
(* ------------------------------------------------------------------ *)

Section property_facts.
Implicit Types (st : OrcaState) (nm : string) (ps : list BlockProperty).

Lemma find_first nm (pre post : list BlockProperty) p :
  Forall (λ q, name q ≠ nm) pre → name p = nm →
  find (λ q, String.eqb (name q) nm) (pre ++ p :: post) = Some p.
Proof.
  intros Hpre Hp. induction Hpre as [|q pre Hq _ IH]; simpl.
  - by rewrite (proj2 (String.eqb_eq _ _) Hp).
  - by rewrite (proj2 (String.eqb_neq _ _) Hq).
Qed.

Lemma find_none nm ps :
  Forall (λ q, name q ≠ nm) ps →
  find (λ q, String.eqb (name q) nm) ps = None.
Proof.
  induction 1 as [|q ps Hq _ IH]; simpl; [done |].
  by rewrite (proj2 (String.eqb_neq _ _) Hq).
Qed.

Lemma find_split nm ps p :
  find (λ q, String.eqb (name q) nm) ps = Some p →
  ∃ pre post, ps = pre ++ p :: post ∧
              Forall (λ q, name q ≠ nm) pre ∧ name p = nm.
Proof.
  induction ps as [|q ps IH]; simpl; [done |].
  destruct (String.eqb (name q) nm) eqn:E.
  - intros [= ->]. exists [], ps. split_and!; [done | constructor |].
    by apply String.eqb_eq.
  - intros H. destruct (IH H) as (pre & post & -> & Hpre & Hp).
    exists (q :: pre), post. split_and!; [done | | done].
    constructor; [by apply String.eqb_neq | done].
Qed.

Lemma find_none_inv nm ps :
  find (λ q, String.eqb (name q) nm) ps = None →
  Forall (λ q, name q ≠ nm) ps.
Proof.
  induction ps as [|q ps IH]; simpl; [constructor |].
  destruct (String.eqb (name q) nm) eqn:E; [done |].
  intros H. constructor; [by apply String.eqb_neq | by apply IH].
Qed.

Lemma property_is_find st blockId nm v :
  property_is st blockId nm v ↔
  ∃ b p, blocks st !! blockId = Some b ∧
         find (λ q, String.eqb (name q) nm) (properties b) = Some p ∧
         value p = v.
Proof.
  split.
  - intros (b & pre & p & post & Hb & Hps & Hpre & Hp & Hv).
    exists b, p. split_and!; [done | | done].
    rewrite Hps. by apply find_first.
  - intros (b & p & Hb & Hf & Hv).
    destruct (find_split _ _ _ Hf) as (pre & post & Hps & Hpre & Hp).
    by exists b, pre, p, post.
Qed.

Lemma getBlockAttr_stored st blockId o :
  property_is st blockId "_attr" (VObj o) →
  getBlockAttr st blockId = VObj o.
Proof.
  intros (b & p & Hb & Hf & Hv)%property_is_find.
  unfold getBlockAttr. rewrite Hb. simpl. rewrite Hf. simpl. by rewrite Hv.
Qed.

Lemma getBlockAttr_absent st blockId :
  property_absent st blockId "_attr" → getBlockAttr st blockId = VObj ∅.
Proof.
  intros Ha. unfold getBlockAttr.
  destruct (blocks st !! blockId) as [b|] eqn:Hb; simpl; [|done].
  by rewrite (find_none _ _ (Ha b Hb)).
Qed.

Lemma attr_map_spread st blockId o :
  attr_map st blockId o → spread (getBlockAttr st blockId) = o.
Proof.
  intros [H|[H ->]].
  - by rewrite (getBlockAttr_stored _ _ _ H).
  - by rewrite (getBlockAttr_absent _ _ H).
Qed.
End property_facts.

(* ------------------------------------------------------------------ *)
(** ** The three togglers *)
(* ------------------------------------------------------------------ *)

Section toggler_facts.
Variable host : Host.
Implicit Types (w : World) (ed : JsValue) (blockId : Z).

Lemma await_then_null c w :
  (host_await host c;; mret VNull) w = invoked host c w.
Proof.
  unfold invoked, mbind, M_bind, host_await, mret, M_ret. simpl.
  by destruct (host c (orca w)) as [st' [v|e]].
Qed.

Lemma setMultiCol_run ed blockId w :
  setMultiCol host ed blockId w
  = invoked host (setProperties blockId
               (<["multi-col" := VNum 1]> (spread (getBlockAttr (orca w) blockId))))
      w.
Proof.
  rewrite <- await_then_null.
  unfold setMultiCol, mbind, M_bind, gets. simpl.
  by destruct (host _ _) as [st' [v|e]].
Qed.

Lemma setSeries_run ed blockId w :
  setSeries host ed blockId w
  = invoked host (setProperties blockId
               (<["serie" := VNum 1]> (spread (getBlockAttr (orca w) blockId))))
      w.
Proof.
  rewrite <- await_then_null.
  unfold setSeries, mbind, M_bind, gets. simpl.
  by destruct (host _ _) as [st' [v|e]].
Qed.

Lemma clearLayout_run ed blockId w :
  clearLayout host ed blockId w
  = let attr := delete "serie"
                  (delete "multi-col" (spread (getBlockAttr (orca w) blockId))) in
    invoked host (if Nat.eqb (size attr) 0 then deleteProperties blockId
             else setProperties blockId attr) w.
Proof.
  cbv zeta. rewrite <- await_then_null.
  unfold clearLayout, mbind, M_bind, gets. simpl.
  destruct (Nat.eqb _ 0); unfold host_await; simpl;
    by destruct (host _ _) as [st' [v|e]].
Qed.
End toggler_facts.

Section toggler_claims.
Variable host : Host.
Implicit Types (w : World) (ed : JsValue) (blockId : Z).

(** C2.  [clearLayout] reads the current [_attr] map (the empty map if
    there is none), removes [multi-col] and [serie], and makes one host
    invocation: [core.editor.deleteProperties] of [_attr] if the reduced
    map is empty, [core.editor.setProperties] with exactly the reduced map
    otherwise. *)
Theorem clearLayout_persists ed blockId w (o : gmap string JsValue) :
  attr_map (orca w) blockId o →
  let reduced := delete "serie" (delete "multi-col" o) in
  reduced !! "multi-col" = None ∧ reduced !! "serie" = None ∧
  (∀ k, k ≠ "multi-col" → k ≠ "serie" → reduced !! k = o !! k) ∧
  (reduced = ∅ →
     calls (clearLayout host ed blockId w)
     = [InvokeEditorCommand "core.editor.deleteProperties" VNull
          [VArr [VNum blockId]; VArr [VStr "_attr"]]]) ∧
  (reduced ≠ ∅ →
     calls (clearLayout host ed blockId w)
     = [InvokeEditorCommand "core.editor.setProperties" VNull
          [VArr [VNum blockId];
           VArr [VObj (<["name" := VStr "_attr"]>
                        (<["value" := VObj reduced]>
                           (<["type" := VNum 0]> ∅)))]]]).
Proof.
  intros Ho reduced. rewrite clearLayout_run. cbv zeta.
  rewrite (attr_map_spread _ _ _ Ho). fold reduced. split_and!.
  - unfold reduced. by rewrite lookup_delete_ne, lookup_delete_eq.
  - unfold reduced. by rewrite lookup_delete_eq.
  - intros k H1 H2. unfold reduced. by rewrite !lookup_delete_ne.
  - intros ->. by rewrite map_size_empty.
  - intros Hne. destruct (Nat.eqb_spec (size reduced) 0) as [E|E]; [|done].
    by apply map_size_empty_iff in E.
Qed.

(** C3.  [setMultiCol] makes a single [core.editor.setProperties]
    invocation that persists the prior [_attr] map with [multi-col] set to
    1 and every other key, a prior [serie] included, as it was; it returns
    null (unless the host rejects the invocation).  [setSeries] does the
    same with [serie]. *)
Theorem setMultiCol_persists ed blockId w (o : gmap string JsValue) :
  attr_map (orca w) blockId o →
  let multi := <["multi-col" := VNum 1]> o in
  let serie := <["serie" := VNum 1]> o in
  let persist attr :=
    InvokeEditorCommand "core.editor.setProperties" VNull
      [VArr [VNum blockId];
       VArr [VObj (<["name" := VStr "_attr"]>
                    (<["value" := VObj attr]> (<["type" := VNum 0]> ∅)))]] in
  setMultiCol host ed blockId w = invoked host (persist multi) w ∧
  multi !! "multi-col" = Some (VNum 1) ∧
  (∀ k, k ≠ "multi-col" → multi !! k = o !! k) ∧
  multi !! "serie" = o !! "serie" ∧
  setSeries host ed blockId w = invoked host (persist serie) w ∧
  serie !! "serie" = Some (VNum 1) ∧
  (∀ k, k ≠ "serie" → serie !! k = o !! k).
Proof.
  intros Ho multi serie persist.
  rewrite setMultiCol_run, setSeries_run, (attr_map_spread _ _ _ Ho).
  split_and!; try done.
  - apply lookup_insert_eq.
  - intros k Hk. by apply lookup_insert_ne.
  - by apply lookup_insert_ne.
  - apply lookup_insert_eq.
  - intros k Hk. by apply lookup_insert_ne.
Qed.

(** C6.  Each of [setMultiCol], [setSeries] and [clearLayout], on any
    block and in any state, makes exactly one host call, an
    [invokeEditorCommand]; the module variables are unchanged and the host
    state is the host's reaction to that call. *)
Theorem togglers_single_invocation ed blockId w :
  single_invocation host w (setMultiCol host ed blockId w) ∧
  single_invocation host w (setSeries host ed blockId w) ∧
  single_invocation host w (clearLayout host ed blockId w).
Proof.
  rewrite setMultiCol_run, setSeries_run, clearLayout_run. cbv zeta.
  split_and!; [by eexists _, _, _ .. |].
  destruct (Nat.eqb _ 0); by eexists _, _, _.
Qed.

(** C7.  For an identifier that resolves to no block, or a block without
    an [_attr] property, [getBlockAttr] yields the empty map (it is a
    total function: nothing is raised), and the set operations persist
    what they persist for an empty attribute map. *)
Theorem getBlockAttr_default ed blockId w :
  property_absent (orca w) blockId "_attr" →
  getBlockAttr (orca w) blockId = VObj ∅ ∧
  calls (setMultiCol host ed blockId w)
  = [InvokeEditorCommand "core.editor.setProperties" VNull
       [VArr [VNum blockId]; attr_property (<["multi-col" := VNum 1]> ∅)]] ∧
  calls (setSeries host ed blockId w)
  = [InvokeEditorCommand "core.editor.setProperties" VNull
       [VArr [VNum blockId]; attr_property (<["serie" := VNum 1]> ∅)]].
Proof.
  intros Ha. rewrite setMultiCol_run, setSeries_run.
  by rewrite (getBlockAttr_absent _ _ Ha).
Qed.

(** C9.  On a block without an [_attr] property, or an identifier that
    resolves to no block, [clearLayout] still makes exactly one host
    call: [core.editor.deleteProperties] for [_attr]. *)
Theorem clearLayout_absent_deletes ed blockId w :
  property_absent (orca w) blockId "_attr" →
  calls (clearLayout host ed blockId w)
  = [InvokeEditorCommand "core.editor.deleteProperties" VNull
       [VArr [VNum blockId]; VArr [VStr "_attr"]]].
Proof.
  intros Ha. rewrite clearLayout_run. cbv zeta.
  by rewrite (getBlockAttr_absent _ _ Ha).
Qed.
End toggler_claims.

Section toggler_witnesses.
Lemma sample_attr_7 :
  attr_map sample_state 7
    (<["multi-col" := VNum 1]> (<["customKey" := VStr "x"]> ∅)).
Proof.
  left. eexists _, [repr_of "table2"], _, [].
  split_and!; [reflexivity | reflexivity | | reflexivity | reflexivity].
  by repeat constructor.
Defined.

Lemma sample_attr_8 : attr_map sample_state 8 (<["multi-col" := VNum 1]> ∅).
Proof.
  left. eexists _, [repr_of "table2"], _, [].
  split_and!; [reflexivity | reflexivity | | reflexivity | reflexivity].
  by repeat constructor.
Defined.

Lemma sample_attr_11 : attr_map sample_state 11 (<["serie" := VNum 1]> ∅).
Proof.
  left. eexists _, [repr_of "table2"], _, [].
  split_and!; [reflexivity | reflexivity | | reflexivity | reflexivity].
  by repeat constructor.
Defined.

Lemma sample_absent_9 : property_absent sample_state 9 "_attr".
Proof.
  intros b Hb. vm_compute in Hb. injection Hb as <-. by repeat constructor.
Defined.

Lemma sample_absent_99 : property_absent sample_state 99 "_attr".
Proof. intros b Hb. vm_compute in Hb. discriminate Hb. Defined.

Lemma clearLayout_persists_witness :
  calls (clearLayout sample_host VNull 7 sample_world)
  = [InvokeEditorCommand "core.editor.setProperties" VNull
       [VArr [VNum 7];
        VArr [VObj (<["name" := VStr "_attr"]>
                     (<["value" := VObj (<["customKey" := VStr "x"]> ∅)]>
                        (<["type" := VNum 0]> ∅)))]]] ∧
  calls (clearLayout sample_host VNull 8 sample_world)
  = [InvokeEditorCommand "core.editor.deleteProperties" VNull
       [VArr [VNum 8]; VArr [VStr "_attr"]]].
Proof.
  split.
  - destruct (clearLayout_persists sample_host VNull 7 sample_world _
                sample_attr_7) as (_ & _ & _ & _ & Hset).
    rewrite Hset; [reflexivity |].
    intros E. apply (f_equal (.!! "customKey")) in E.
    vm_compute in E. discriminate E.
  - destruct (clearLayout_persists sample_host VNull 8 sample_world _
                sample_attr_8) as (_ & _ & _ & Hdel & _).
    apply Hdel. reflexivity.
Defined.

Lemma setMultiCol_persists_witness :
  setMultiCol sample_host VNull 11 sample_world
  = invoked sample_host
      (InvokeEditorCommand "core.editor.setProperties" VNull
         [VArr [VNum 11];
          VArr [VObj (<["name" := VStr "_attr"]>
                       (<["value" :=
                            VObj (<["multi-col" := VNum 1]>
                                    (<["serie" := VNum 1]> ∅))]>
                          (<["type" := VNum 0]> ∅)))]])
      sample_world ∧
  (<["multi-col" := VNum 1]> (<["serie" := VNum 1]> ∅) : gmap string JsValue)
    !! "serie" = Some (VNum 1).
Proof.
  destruct (setMultiCol_persists sample_host VNull 11 sample_world _
              sample_attr_11) as (Hrun & _ & _ & Hserie & _).
  split; [exact Hrun | rewrite Hserie; reflexivity].
Defined.

Lemma getBlockAttr_default_witness :
  getBlockAttr sample_state 99 = VObj ∅ ∧
  getBlockAttr sample_state 9 = VObj ∅.
Proof.
  split.
  - apply (getBlockAttr_default sample_host VNull 99 sample_world
             sample_absent_99).
  - apply (getBlockAttr_default sample_host VNull 9 sample_world
             sample_absent_9).
Defined.

Lemma clearLayout_absent_deletes_witness :
  calls (clearLayout sample_host VNull 9 sample_world)
  = [InvokeEditorCommand "core.editor.deleteProperties" VNull
       [VArr [VNum 9]; VArr [VStr "_attr"]]] ∧
  calls (clearLayout sample_host VNull 99 sample_world)
  = [InvokeEditorCommand "core.editor.deleteProperties" VNull
       [VArr [VNum 99]; VArr [VStr "_attr"]]].
Proof.
  split.
  - apply (clearLayout_absent_deletes sample_host VNull 9 sample_world
             sample_absent_9).
  - apply (clearLayout_absent_deletes sample_host VNull 99 sample_world
             sample_absent_99).
Defined.
End toggler_witnesses.

(* ------------------------------------------------------------------ *)
(** ** The block menu *)
(* ------------------------------------------------------------------ *)

Section render_facts.
Variable host : Host.
Implicit Types (w : World) (blockId : Z) (close : M unit).

Lemma is_string_spec v s : is_string v s = true ↔ v = VStr s.
Proof.
  destruct v; simpl; try (split; [done | discriminate]).
  rewrite String.eqb_eq. split; [by intros -> | by intros [= ->]].
Qed.

Lemma repr_is_table2_find st blockId :
  repr_is_table2 st blockId ↔
  ∃ b, blocks st !! blockId = Some b ∧
       is_string
         (member (from_option value VUndefined
                    (find (λ p, String.eqb (name p) "_repr") (properties b)))
            "type") "table2" = true.
Proof.
  unfold repr_is_table2. setoid_rewrite property_is_find.
  setoid_rewrite is_string_spec. split.
  - intros (v & (b & p & Hb & Hf & <-) & Hm). exists b. by rewrite Hf.
  - intros (b & Hb & Hm).
    destruct (find _ (properties b)) as [p|] eqn:Hf; [|done].
    exists (value p). split; [by exists b, p | done].
Qed.

Lemma invoke_and_close_run suffix blockId close w :
  let c := InvokeEditorCommand (name_text (plugin w) +:+ suffix) VNull
             [VNum blockId] in
  let w1 := {| plugin := plugin w; orca := (host c (orca w)).1 |} in
  invoke_and_close host suffix blockId close w
  = match (host c (orca w)).2 with
    | Returned _ =>
        {| outcome := outcome (close w1); final := final (close w1);
           calls := c :: calls (close w1) |}
    | Thrown e => {| outcome := Thrown e; final := w1; calls := [c] |}
    end.
Proof.
  unfold invoke_and_close, plugin_id, mbind, M_bind, gets, host_await.
  simpl. by destruct (host _ _) as [st' [v|e]].
Qed.

(** C4.  [render] returns null whenever [_repr.type] of the block is not
    ["table2"], in particular when the block does not exist; when it is
    ["table2"] it returns a menu of exactly three items (multi-column,
    series, none).  Clicking an item invokes the plugin's command of that
    name on the block and then closes the menu. *)
Theorem render_table2_only w blockId rootBlockId close :
  (¬ repr_is_table2 (orca w) blockId →
   render host w blockId rootBlockId close = None) ∧
  (repr_is_table2 (orca w) blockId →
   ∃ click1 click2 click3,
     render host w blockId rootBlockId close
     = Some
         (MenuText (Some "ti ti-layout-dashboard")
            (t (l10n (plugin w)) "Table Layout" None None) None
            [Menu
               [MenuText None (t (l10n (plugin w)) "Multi-column" None None)
                  (Some click1) [];
                MenuText None (t (l10n (plugin w)) "Series" None None)
                  (Some click2) [];
                MenuText None (t (l10n (plugin w)) "None" None None)
                  (Some click3) []]]) ∧
     ∀ w',
       let invoke suffix :=
         InvokeEditorCommand (name_text (plugin w') +:+ suffix) VNull
           [VNum blockId] in
       let then_close (c : HostCall) (r : Run unit) :=
         let w1 := {| plugin := plugin w'; orca := (host c (orca w')).1 |} in
         match (host c (orca w')).2 with
         | Returned _ =>
             r = {| outcome := outcome (close w1); final := final (close w1);
                    calls := c :: calls (close w1) |}
         | Thrown e => r = {| outcome := Thrown e; final := w1; calls := [c] |}
         end in
       then_close (invoke ".multi-col") (click1 w') ∧
       then_close (invoke ".series") (click2 w') ∧
       then_close (invoke ".none") (click3 w')).
Proof.
  split.
  - intros Hn. unfold render.
    destruct (blocks (orca w) !! blockId) as [b|] eqn:Hb; [|done].
    destruct (is_string _ "table2") eqn:E; [|done].
    destruct Hn. apply repr_is_table2_find. by exists b.
  - intros (b & Hb & E)%repr_is_table2_find.
    unfold render. rewrite Hb, E. cbn [negb].
    eexists _, _, _. split; [reflexivity |].
    intros w'. cbv zeta. rewrite !invoke_and_close_run. cbv zeta.
    by destruct (host _ _) as [? [?|?]], (host _ _) as [? [?|?]],
         (host _ _) as [? [?|?]].
Qed.
End render_facts.

Lemma sample_table2_7 : repr_is_table2 sample_state 7.
Proof.
  exists (value (repr_of "table2")). split; [|reflexivity].
  eexists _, [], _, _. split_and!; reflexivity || constructor.
Defined.

Lemma sample_not_table2_10 : ¬ repr_is_table2 sample_state 10.
Proof.
  intros (b & Hb & E)%repr_is_table2_find.
  vm_compute in Hb. injection Hb as <-. vm_compute in E. discriminate E.
Defined.


Lemma render_table2_only_witness :
  render sample_host sample_world 10 0 (mret tt) = None ∧
  ∃ item1 item2 item3,
    render sample_host sample_world 7 0 (mret tt)
    = Some (MenuText (Some "ti ti-layout-dashboard") "Table Layout" None
              [Menu [item1; item2; item3]]).
Proof.
  split.
  - apply (render_table2_only sample_host sample_world 10 0 (mret tt)).
    exact sample_not_table2_10.
  - destruct (render_table2_only sample_host sample_world 7 0 (mret tt))
      as [_ H].
    destruct (H sample_table2_7) as (c1 & c2 & c3 & -> & _).
    by eexists _, _, _.
Defined.

(* ------------------------------------------------------------------ *)
(** ** Loading *)
(* ------------------------------------------------------------------ *)

Section load_facts.
Variable host : Host.
Variable zhCN : gmap string string.
Implicit Types (w : World) (nm suffix key : string).

Lemma bind_returned {A B} (m : M A) (k : A → M B) w a :
  outcome (m w) = Returned a →
  (m ≫= k) w
  = {| outcome := outcome (k a (final (m w)));
       final := final (k a (final (m w)));
       calls := calls (m w) ++ calls (k a (final (m w))) |}.
Proof. unfold mbind, M_bind. by intros ->. Qed.

Lemma register_run suffix doFn key w :
  let cmd := name_text (plugin w) +:+ suffix in
  let c := RegisterEditorCommand cmd doFn (t (l10n (plugin w)) key None None) in
  register host suffix doFn key w
  = if bool_decide (commands (orca w) !! cmd = None)
    then {| outcome := Returned tt;
            final := {| plugin := plugin w; orca := (host c (orca w)).1 |};
            calls := [c] |}
    else {| outcome := Returned tt; final := w; calls := [] |}.
Proof.
  unfold register, command_missing, plugin_id, tr, mbind, M_bind, gets.
  simpl. by destruct (bool_decide _).
Qed.

Lemma register_menu_run suffix w :
  let cmd := name_text (plugin w) +:+ suffix in
  let c := RegisterBlockMenuCommand cmd false in
  register_menu host suffix w
  = if bool_decide (blockMenuCommands (orca w) !! cmd = None)
    then {| outcome := Returned tt;
            final := {| plugin := plugin w; orca := (host c (orca w)).1 |};
            calls := [c] |}
    else {| outcome := Returned tt; final := w; calls := [] |}.
Proof.
  unfold register_menu, menu_missing, plugin_id, mbind, M_bind, gets.
  simpl. by destruct (bool_decide _).
Qed.

Lemma register_outcome suffix doFn key w :
  outcome (register host suffix doFn key w) = Returned tt.
Proof. rewrite register_run. cbv zeta. by destruct (bool_decide _). Qed.

Lemma register_menu_outcome suffix w :
  outcome (register_menu host suffix w) = Returned tt.
Proof. rewrite register_menu_run. cbv zeta. by destruct (bool_decide _). Qed.

Lemma register_plugin suffix doFn key w :
  plugin (final (register host suffix doFn key w)) = plugin w.
Proof. rewrite register_run. cbv zeta. by destruct (bool_decide _). Qed.

Lemma register_menu_plugin suffix w :
  plugin (final (register_menu host suffix w)) = plugin w.
Proof. rewrite register_menu_run. cbv zeta. by destruct (bool_decide _). Qed.

(** [load], step by step. *)
Lemma load_run nm w :
  let p0 := {| pluginName := Some nm;
               l10n := setupL10N (locale (orca w)) (<["zh-CN" := zhCN]> ∅) |} in
  let r1 := register host ".multi-col" SetMultiCol "Set Multi-column"
              {| plugin := p0; orca := orca w |} in
  let r2 := register host ".series" SetSeries "Set Series" (final r1) in
  let r3 := register host ".none" ClearLayout "Clear Layout" (final r2) in
  let r4 := register_menu host ".menu" (final r3) in
  let c5 := InjectCSSResource (nm +:+ "/dist/layouts.css") nm in
  let c6 := ConsoleLog (nm +:+ " loaded.") in
  load host zhCN nm w
  = {| outcome := Returned tt;
       final := {| plugin := p0;
                   orca := (host c6 (host c5 (orca (final r4))).1).1 |};
       calls := calls r1 ++ calls r2 ++ calls r3 ++ calls r4 ++ [c5; c6] |}.
Proof.
  intros p0 r1 r2 r3 r4 c5 c6. unfold load.
  rewrite (bind_returned _ _ _ tt) by done.
  rewrite (bind_returned _ _ _ (locale (orca w))) by done.
  rewrite (bind_returned _ _ _ tt) by done.
  rewrite (bind_returned _ _ _ tt) by apply register_outcome.
  rewrite (bind_returned _ _ _ tt) by apply register_outcome.
  rewrite (bind_returned _ _ _ tt) by apply register_outcome.
  rewrite (bind_returned _ _ _ tt) by apply register_menu_outcome.
  cbn [modify_plugin gets final calls outcome plugin orca pluginName l10n
       app].
  fold p0. fold r1. fold r2. fold r3. fold r4.
  assert (plugin (final r4) = p0) as Hp.
  { unfold r4, r3, r2, r1.
    by rewrite register_menu_plugin, !register_plugin. }
  unfold plugin_id, host_call, mbind, M_bind, gets. cbn.
  by rewrite Hp.
Qed.

Lemma grows_refl st : registries_grow st st.
Proof. by split. Qed.

Lemma grows_trans st1 st2 st3 :
  registries_grow st1 st2 → registries_grow st2 st3 →
  registries_grow st1 st3.
Proof. intros [H1 H2] [H3 H4]. split; eauto. Qed.

Lemma host_grows c st :
  registry_contract host → is_unregistration c = false →
  registries_grow st (host c st).1.
Proof.
  intros Hc Hu. split; intros k Hk.
  - by apply (commands_kept _ Hc).
  - by apply (menus_kept _ Hc).
Qed.

Lemma register_grows suffix doFn key w :
  registry_contract host →
  registries_grow (orca w) (orca (final (register host suffix doFn key w))).
Proof.
  intros Hc. rewrite register_run. cbv zeta.
  destruct (bool_decide _); [by apply host_grows | apply grows_refl].
Qed.

Lemma register_menu_grows suffix w :
  registry_contract host →
  registries_grow (orca w) (orca (final (register_menu host suffix w))).
Proof.
  intros Hc. rewrite register_menu_run. cbv zeta.
  destruct (bool_decide _); [by apply host_grows | apply grows_refl].
Qed.

Lemma register_adds suffix doFn key w :
  registry_contract host →
  is_Some (commands (orca (final (register host suffix doFn key w)))
             !! (name_text (plugin w) +:+ suffix)).
Proof.
  intros Hc. rewrite register_run. cbv zeta.
  destruct (bool_decide_reflect
              (commands (orca w) !! (name_text (plugin w) +:+ suffix) = None))
    as [E|E]; simpl.
  - apply (command_added _ Hc).
  - by apply not_eq_None_Some.
Qed.

Lemma register_menu_adds suffix w :
  registry_contract host →
  is_Some (blockMenuCommands (orca (final (register_menu host suffix w)))
             !! (name_text (plugin w) +:+ suffix)).
Proof.
  intros Hc. rewrite register_menu_run. cbv zeta.
  destruct (bool_decide_reflect
              (blockMenuCommands (orca w)
                 !! (name_text (plugin w) +:+ suffix) = None))
    as [E|E]; simpl.
  - apply (menu_added _ Hc).
  - by apply not_eq_None_Some.
Qed.

(** A registration is made only for an identifier that is absent. *)
Lemma register_calls suffix doFn key w c :
  c ∈ calls (register host suffix doFn key w) →
  c = RegisterEditorCommand (name_text (plugin w) +:+ suffix) doFn
        (t (l10n (plugin w)) key None None) ∧
  commands (orca w) !! (name_text (plugin w) +:+ suffix) = None.
Proof.
  rewrite register_run. cbv zeta.
  destruct (bool_decide_reflect
              (commands (orca w) !! (name_text (plugin w) +:+ suffix) = None))
    as [E|E]; simpl.
  - by intros ->%list_elem_of_singleton.
  - by intros ?%elem_of_nil.
Qed.

Lemma register_menu_calls suffix w c :
  c ∈ calls (register_menu host suffix w) →
  c = RegisterBlockMenuCommand (name_text (plugin w) +:+ suffix) false ∧
  blockMenuCommands (orca w) !! (name_text (plugin w) +:+ suffix) = None.
Proof.
  rewrite register_menu_run. cbv zeta.
  destruct (bool_decide_reflect
              (blockMenuCommands (orca w)
                 !! (name_text (plugin w) +:+ suffix) = None))
    as [E|E]; simpl.
  - by intros ->%list_elem_of_singleton.
  - by intros ?%elem_of_nil.
Qed.

Lemma register_present suffix doFn key w :
  is_Some (commands (orca w) !! (name_text (plugin w) +:+ suffix)) →
  register host suffix doFn key w
  = {| outcome := Returned tt; final := w; calls := [] |}.
Proof.
  intros Hs. rewrite register_run. cbv zeta.
  rewrite bool_decide_eq_false_2; [done |]. by apply not_eq_None_Some.
Qed.

Lemma register_menu_present suffix w :
  is_Some (blockMenuCommands (orca w) !! (name_text (plugin w) +:+ suffix)) →
  register_menu host suffix w
  = {| outcome := Returned tt; final := w; calls := [] |}.
Proof.
  intros Hs. rewrite register_menu_run. cbv zeta.
  rewrite bool_decide_eq_false_2; [done |]. by apply not_eq_None_Some.
Qed.

Lemma register_no_injection suffix doFn key w :
  List.filter is_injection (calls (register host suffix doFn key w)) = [].
Proof. rewrite register_run. cbv zeta. by destruct (bool_decide _). Qed.

Lemma register_menu_no_injection suffix w :
  List.filter is_injection (calls (register_menu host suffix w)) = [].
Proof. rewrite register_menu_run. cbv zeta. by destruct (bool_decide _). Qed.

(** With the four identifiers in the registries, [load] registers
    nothing. *)
Lemma load_registered nm w :
  is_Some (commands (orca w) !! (nm +:+ ".multi-col")) →
  is_Some (commands (orca w) !! (nm +:+ ".series")) →
  is_Some (commands (orca w) !! (nm +:+ ".none")) →
  is_Some (blockMenuCommands (orca w) !! (nm +:+ ".menu")) →
  calls (load host zhCN nm w)
  = [InjectCSSResource (nm +:+ "/dist/layouts.css") nm;
     ConsoleLog (nm +:+ " loaded.")].
Proof.
  intros H1 H2 H3 H4. rewrite load_run. cbv zeta.
  rewrite (register_present ".multi-col") by done. cbn [final calls].
  rewrite (register_present ".series") by done. cbn [final calls].
  rewrite (register_present ".none") by done. cbn [final calls].
  by rewrite (register_menu_present ".menu") by done.
Qed.

(** Under the registry contract the four identifiers are registered once
    [load] has run. *)
Lemma load_registers nm w :
  registry_contract host →
  let st := orca (final (load host zhCN nm w)) in
  is_Some (commands st !! (nm +:+ ".multi-col")) ∧
  is_Some (commands st !! (nm +:+ ".series")) ∧
  is_Some (commands st !! (nm +:+ ".none")) ∧
  is_Some (blockMenuCommands st !! (nm +:+ ".menu")).
Proof.
  intros Hc. rewrite load_run. cbv zeta. cbn [final orca].
  set (p0 := {| pluginName := Some nm; l10n := _ |}).
  set (r1 := register host ".multi-col" _ _ _).
  set (r2 := register host ".series" _ _ _).
  set (r3 := register host ".none" _ _ _).
  set (r4 := register_menu host ".menu" _).
  assert (plugin (final r1) = p0) as P1 by apply register_plugin.
  assert (plugin (final r2) = p0) as P2
    by (unfold r2; by rewrite register_plugin).
  assert (plugin (final r3) = p0) as P3
    by (unfold r3; by rewrite register_plugin).
  pose proof (register_adds ".multi-col" SetMultiCol "Set Multi-column"
                {| plugin := p0; orca := orca w |} Hc) as A1.
  pose proof (register_adds ".series" SetSeries "Set Series" (final r1) Hc)
    as A2.
  pose proof (register_adds ".none" ClearLayout "Clear Layout" (final r2) Hc)
    as A3.
  pose proof (register_menu_adds ".menu" (final r3) Hc) as A4.
  fold r1 in A1. fold r2 in A2. fold r3 in A3. fold r4 in A4.
  rewrite P1 in A2. rewrite P2 in A3. rewrite P3 in A4.
  change (name_text p0) with nm in A2, A3, A4.
  change (is_Some (commands (orca (final r1)) !! (nm +:+ ".multi-col")))
    in A1.
  pose proof (register_grows ".series" SetSeries "Set Series" (final r1) Hc)
    as [G2 G2'].
  pose proof (register_grows ".none" ClearLayout "Clear Layout" (final r2) Hc)
    as [G3 G3'].
  pose proof (register_menu_grows ".menu" (final r3) Hc) as [G4 G4'].
  fold r2 in G2, G2'. fold r3 in G3, G3'. fold r4 in G4, G4'.
  assert (registries_grow (orca (final r4))
            (host (ConsoleLog (nm +:+ " loaded."))
               (host (InjectCSSResource (nm +:+ "/dist/layouts.css") nm)
                  (orca (final r4))).1).1) as [G5 G5'].
  { eapply grows_trans; by apply host_grows. }
  split_and!; eauto 10.
Qed.
End load_facts.

Section load_claims.
Variable host : Host.
Variable zhCN : gmap string string.
Implicit Types (w : World) (nm : string).

Lemma load_outcome nm w : outcome (load host zhCN nm w) = Returned tt.
Proof. by rewrite load_run. Qed.

Lemma grows_absent st st' k :
  registries_grow st st' →
  (commands st' !! k = None → commands st !! k = None) ∧
  (blockMenuCommands st' !! k = None → blockMenuCommands st !! k = None).
Proof.
  intros [G G']. split; intros Hn; apply eq_None_not_Some; intros Hs.
  - apply G in Hs. rewrite Hn in Hs. by destruct Hs.
  - apply G' in Hs. rewrite Hn in Hs. by destruct Hs.
Qed.

(** C5.  Under the registry contract of the host, a second [load] without
    an [unload] in between returns normally and registers nothing: its
    only host calls are the CSS injection and the log line.  In any state,
    [load] registers an editor command or the block menu command only
    under an identifier that the registry does not hold. *)
Theorem load_twice_registers_once nm w :
  registry_contract host →
  outcome (load host zhCN nm (final (load host zhCN nm w))) = Returned tt ∧
  calls (load host zhCN nm (final (load host zhCN nm w)))
  = [InjectCSSResource (nm +:+ "/dist/layouts.css") nm;
     ConsoleLog (nm +:+ " loaded.")] ∧
  ∀ w0 c,
    c ∈ calls (load host zhCN nm w0) →
    match c with
    | RegisterEditorCommand cmd _ _ => commands (orca w0) !! cmd = None
    | RegisterBlockMenuCommand cmd _ =>
        blockMenuCommands (orca w0) !! cmd = None
    | _ => True
    end.
Proof.
  intros Hc. split_and!.
  - apply load_outcome.
  - destruct (load_registers host zhCN nm w Hc) as (H1 & H2 & H3 & H4).
    by apply load_registered.
  - intros w0 c. rewrite load_run. cbv zeta. cbn [calls].
    set (p0 := {| pluginName := Some nm; l10n := _ |}).
    set (r1 := register host ".multi-col" _ _ _).
    set (r2 := register host ".series" _ _ _).
    set (r3 := register host ".none" _ _ _).
    set (r4 := register_menu host ".menu" _).
    pose proof (register_grows host ".multi-col" SetMultiCol
                  "Set Multi-column" {| plugin := p0; orca := orca w0 |} Hc)
      as G1.
    pose proof (register_grows host ".series" SetSeries "Set Series"
                  (final r1) Hc) as G2.
    pose proof (register_grows host ".none" ClearLayout "Clear Layout"
                  (final r2) Hc) as G3.
    fold r1 in G1. fold r2 in G2. fold r3 in G3. cbn [orca] in G1.
    pose proof (grows_trans _ _ _ G1 G2) as G12.
    pose proof (grows_trans _ _ _ G12 G3) as G123.
    rewrite !elem_of_app. intros [H|[H|[H|[H|H]]]].
    + by apply register_calls in H as [-> H].
    + apply register_calls in H as [-> H].
      by apply (grows_absent _ _ _ G1).
    + apply register_calls in H as [-> H].
      by apply (grows_absent _ _ _ G12).
    + apply register_menu_calls in H as [-> H].
      by apply (grows_absent _ _ _ G123).
    + apply elem_of_cons in H as [->|H]; [done |].
      by apply list_elem_of_singleton in H as ->.
Qed.

(** C10.  Every [load] makes exactly one [injectCSSResource] call, for
    [`${pluginName}/dist/layouts.css`] under the plugin's name, whatever
    the registries hold; two [load]s in a row make the call twice. *)
Theorem load_injects_css nm w :
  List.filter is_injection (calls (load host zhCN nm w))
  = [InjectCSSResource (nm +:+ "/dist/layouts.css") nm] ∧
  List.filter is_injection
    (calls ((load host zhCN nm;; load host zhCN nm) w))
  = [InjectCSSResource (nm +:+ "/dist/layouts.css") nm;
     InjectCSSResource (nm +:+ "/dist/layouts.css") nm].
Proof.
  assert (∀ w', List.filter is_injection (calls (load host zhCN nm w'))
                = [InjectCSSResource (nm +:+ "/dist/layouts.css") nm])
    as Hone.
  { intros w'. rewrite load_run. cbv zeta. cbn [calls].
    rewrite !List.filter_app, !register_no_injection,
      register_menu_no_injection.
    done. }
  split; [apply Hone |].
  rewrite (bind_returned _ _ _ tt) by apply load_outcome. cbn [calls].
  by rewrite List.filter_app, !Hone.
Qed.
End load_claims.

Lemma sample_host_contract : registry_contract sample_host.
Proof.
  split.
  - intros cmd f l st. simpl. rewrite lookup_insert_eq. by eexists.
  - intros cmd m st. simpl. rewrite lookup_insert_eq. by eexists.
  - intros c st k Hu Hk. destruct c; simpl in *; try done.
    + rewrite lookup_insert. by case_decide; [eexists |].
    + unfold sample_invoke. by repeat case_match.
  - intros c st k Hu Hk. destruct c; simpl in *; try done.
    + rewrite lookup_insert. by case_decide; [eexists |].
    + unfold sample_invoke. by repeat case_match.
Defined.

Lemma load_twice_registers_once_witness :
  calls (load sample_host sample_zhCN "tl"
           (final (load sample_host sample_zhCN "tl" sample_world)))
  = [InjectCSSResource "tl/dist/layouts.css" "tl"; ConsoleLog "tl loaded."].
Proof.
  apply (load_twice_registers_once sample_host sample_zhCN "tl" sample_world
           sample_host_contract).
Defined.

Example load_first_time :
  calls (load sample_host sample_zhCN "tl" sample_world)
  = [RegisterEditorCommand "tl.multi-col" SetMultiCol "Set Multi-column";
     RegisterEditorCommand "tl.series" SetSeries "Set Series";
     RegisterEditorCommand "tl.none" ClearLayout "Clear Layout";
     RegisterBlockMenuCommand "tl.menu" false;
     InjectCSSResource "tl/dist/layouts.css" "tl";
     ConsoleLog "tl loaded."].
Proof. vm_compute. reflexivity. Qed.

(** Setting multi-column and reading the block again, on the sample host. *)
Example setMultiCol_then_read :
  spread (getBlockAttr
            (orca (final (setMultiCol sample_host VNull 11 sample_world))) 11)
  = <["multi-col" := VNum 1]> (<["serie" := VNum 1]> ∅).
Proof. vm_compute. reflexivity. Qed.

Example clearLayout_then_read :
  property_absent
    (orca (final (clearLayout sample_host VNull 8 sample_world))) 8 "_attr".
Proof.
  intros b Hb. vm_compute in Hb. injection Hb as <-. by repeat constructor.
Qed.

(* ------------------------------------------------------------------ *)
(** ** More on the localisation helper *)
(* ------------------------------------------------------------------ *)

Section l10n_more.
Implicit Types (s pat val repl str before : string) (g : L10N).

Lemma string_app_nil_r s : s +:+ EmptyString = s.
Proof.
  induction s as [|c s IH]; [done |]. by rewrite append_cons, IH.
Qed.

Lemma string_app_assoc s1 s2 s3 : (s1 +:+ s2) +:+ s3 = s1 +:+ s2 +:+ s3.
Proof.
  induction s1 as [|c s1 IH]; [done |]. by rewrite !append_cons, IH.
Qed.

Lemma string_length_app s1 s2 :
  String.length (s1 +:+ s2) = String.length s1 + String.length s2.
Proof.
  induction s1 as [|c s1 IH]; [done |].
  rewrite append_cons. cbn [String.length]. by rewrite IH.
Qed.

Lemma occursb_false pat s : occursb pat s = false → ¬ occurs pat s.
Proof.
  induction s as [|c s IH]; cbn [occursb]; intros H (a & b & E).
  - apply orb_false_iff in H as [H _].
    destruct a; [|done]. destruct pat; [by destruct b | done].
  - apply orb_false_iff in H as [H1 H2]. destruct a as [|d a].
    + change (EmptyString +:+ pat +:+ b) with (pat +:+ b) in E.
      by rewrite E, prefix_append in H1.
    + rewrite append_cons in E. injection E as _ E.
      apply (IH H2). by exists a, b.
Qed.

(** Without an occurrence of the pattern the replacement text is never
    looked at. *)
Lemma replace_scan_absent pat repl before s :
  ¬ occurs pat s → replace_scan pat repl before 0 s = s.
Proof.
  revert before. induction s as [|c s IH]; intros before Hn; [done |].
  cbn [replace_scan]. destruct (String.prefix pat (String c s)) eqn:E.
  - destruct Hn. apply prefix_split in E as [b E].
    exists EmptyString, b. by rewrite E.
  - rewrite IH; [done |].
    intros (a & b & ->). apply Hn. by exists (String c a), b.
Qed.

Lemma replaceAll_absent str nm repl :
  ¬ occurs (placeholder nm) str → replaceAll str (placeholder nm) repl = str.
Proof.
  intros Hn. rewrite placeholder_cons in *. by apply replace_scan_absent.
Qed.

Lemma replace_scan_skip pat repl before p s :
  replace_scan pat repl before (String.length p) (p +:+ s)
  = replace_scan pat repl (before +:+ p) 0 s.
Proof.
  revert before. induction p as [|c p IH]; intros before.
  - by rewrite string_app_nil_r.
  - rewrite append_cons. cbn [String.length replace_scan].
    rewrite IH. by rewrite string_app_assoc.
Qed.

(** One step of the scan at a match. *)
Lemma replace_scan_match c pat repl before s :
  replace_scan (String c pat) repl before 0 (String c pat +:+ s)
  = GetSubstitution (String c pat) before s repl
      +:+ replace_scan (String c pat) repl (before +:+ String c pat) 0 s.
Proof.
  rewrite append_cons. cbn [replace_scan].
  rewrite <- append_cons, prefix_append.
  replace (String.length (String c pat) - 1) with (String.length pat)
    by (cbn [String.length]; lia).
  rewrite replace_scan_skip, string_app_assoc. f_equal.
  f_equal. clear. revert s. induction pat as [|d pat IH]; intros s.
  - done.
  - specialize (IH s). cbn [String.length string_drop] in *.
    by rewrite !append_cons in *.
Qed.

Lemma replace_scan_matched_text c pat :
  ∀ n s before,
    String.length s ≤ n →
    replace_scan (String c pat) "$&" before 0 s = s.
Proof.
  induction n as [|n IH]; intros s before Hn.
  { destruct s; [done | simpl in Hn; lia]. }
  destruct s as [|d s]; [done |].
  destruct (String.prefix (String c pat) (String d s)) eqn:E.
  - apply prefix_split in E as [b E]. rewrite E.
    rewrite replace_scan_match. cbn [GetSubstitution Ascii.eqb]. simpl.
    rewrite string_app_nil_r. rewrite IH; [by rewrite append_cons |].
    apply (f_equal String.length) in E.
    rewrite string_length_app in E. cbn [String.length] in *. lia.
  - cbn [replace_scan]. rewrite E. rewrite IH; [done |].
    cbn [String.length] in Hn. lia.
Qed.

Lemma replace_literal_dollar_free a s nm val :
  dollar_free a = true →
  replace_literal (a +:+ s) (placeholder nm) val
  = a +:+ replace_literal s (placeholder nm) val.
Proof.
  intros Ha. induction a as [|c a IH]; [done |].
  cbn [dollar_free] in Ha. apply andb_true_iff in Ha as [Hc Ha].
  rewrite !append_cons, replace_literal_step, IH; [done .. |].
  rewrite placeholder_cons. cbn [String.prefix].
  destruct (ascii_dec "$" c) as [<-|]; [|done].
  by rewrite Ascii.eqb_refl in Hc.
Qed.

(** X3.  A template made of a text without [$], one placeholder and a rest
    in which the placeholder does not occur again: with a value free of
    replacement patterns [t] returns the text, the value and the rest. *)
Theorem t_single_placeholder g key locale a nm b val :
  t g key None locale = a +:+ placeholder nm +:+ b →
  dollar_free a = true →
  ¬ occurs (placeholder nm) b →
  plain val = true →
  t g key (Some [(nm, val)]) locale = a +:+ val +:+ b.
Proof.
  unfold t. intros -> Ha Hb Hv. cbn [foldl].
  rewrite replaceAll_plain by done.
  rewrite replace_literal_dollar_free by done.
  rewrite placeholder_cons in *.
  by rewrite replace_literal_match, replace_literal_absent.
Qed.

Lemma replace_literal_dollar_free_all a nm val :
  dollar_free a = true → replace_literal a (placeholder nm) val = a.
Proof.
  intros Ha. rewrite <- (string_app_nil_r a) at 1.
  rewrite replace_literal_dollar_free by done.
  by rewrite replace_literal_empty, string_app_nil_r.
Qed.

(** X14.  A template made of texts without [$] with the placeholder
    between them: with a value free of replacement patterns [t] returns the
    texts with the value between them, so every occurrence is replaced. *)
Theorem t_every_occurrence g key locale segs nm val :
  t g key None locale = string_join (placeholder nm) segs →
  forallb dollar_free segs = true →
  plain val = true →
  t g key (Some [(nm, val)]) locale = string_join val segs.
Proof.
  unfold t. intros -> Hs Hv. cbn [foldl]. rewrite replaceAll_plain by done.
  induction segs as [|a segs IH]; [done |].
  cbn [forallb] in Hs. apply andb_true_iff in Hs as [Ha Hs].
  destruct segs as [|b segs].
  - by apply replace_literal_dollar_free_all.
  - change (string_join ?sep (a :: b :: segs))
      with (a +:+ sep +:+ string_join sep (b :: segs)).
    rewrite replace_literal_dollar_free by done.
    rewrite (placeholder_cons nm) at 1 2.
    rewrite replace_literal_match, <- placeholder_cons. by rewrite IH.
Qed.
End l10n_more.

Lemma t_single_placeholder_witness :
  t sample_l10n "Hi ${n}" (Some [("n", "Li $ 5")]) None = "Ni hao Li $ 5".
Proof.
  apply (t_single_placeholder sample_l10n "Hi ${n}" None "Ni hao " "n"
           EmptyString "Li $ 5");
    [reflexivity | reflexivity | by apply occursb_false | reflexivity].
Defined.

Lemma t_every_occurrence_witness :
  t l10n_init "${n} and ${n} again" (Some [("n", "Li")]) None
  = "Li and Li again".
Proof.
  apply (t_every_occurrence l10n_init "${n} and ${n} again" None
           [EmptyString; " and "; " again"] "n" "Li"); reflexivity.
Defined.

Section realm_more.
Variable Other : Type.
Variable proto : string → Lookup Other.
Variable member : Looked Other → string → Lookup Other.
Variable reduce_other : Other → list (string * string) → Lookup Other.
Implicit Types (g : L10N) (key tpl : string) (locale : option string).

Lemma foldl_replaceAll_absent entries tpl :
  Forall (λ e, ¬ occurs (placeholder e.1) tpl) entries →
  foldl (λ str '(name, val), replaceAll str (placeholder name) val) tpl entries
  = tpl.
Proof.
  induction 1 as [|[nm val] entries Hn _ IH]; [done |].
  cbn [foldl]. by rewrite replaceAll_absent.
Qed.

Lemma foldl_replaceAll_matched entries tpl :
  Forall (λ e, e.2 = "$&") entries →
  foldl (λ str '(name, val), replaceAll str (placeholder name) val) tpl entries
  = tpl.
Proof.
  induction 1 as [|[nm val] entries Hv _ IH]; [done |].
  simpl in Hv. subst val. cbn [foldl].
  rewrite placeholder_cons. unfold replaceAll.
  by rewrite (replace_scan_matched_text _ _ (String.length tpl)).
Qed.

(** X1.  When [t] without arguments returns a string in which none of the
    placeholders of the arguments occurs, [t] with the arguments returns
    that string, whatever the values are. *)
Theorem t_placeholders_absent g key entries locale tpl :
  Realm.t Other proto member reduce_other g key None locale
  = Found (LString tpl) →
  Forall (λ e, ¬ occurs (placeholder e.1) tpl) entries →
  Realm.t Other proto member reduce_other g key (Some entries) locale
  = Found (LString tpl).
Proof.
  intros Ht Ha. rewrite (realm_t_string _ _ _ _ _ _ _ _ _ Ht).
  by rewrite foldl_replaceAll_absent.
Qed.

(** X2.  A value [$&] stands for the text matched: when [t] without
    arguments returns a string and every value is [$&], every placeholder
    stays in place and [t] returns that string. *)
Theorem t_matched_text_values g key entries locale tpl :
  Realm.t Other proto member reduce_other g key None locale
  = Found (LString tpl) →
  Forall (λ e, e.2 = "$&") entries →
  Realm.t Other proto member reduce_other g key (Some entries) locale
  = Found (LString tpl).
Proof.
  intros Ht Ha. rewrite (realm_t_string _ _ _ _ _ _ _ _ _ Ht).
  by rewrite foldl_replaceAll_matched.
Qed.
End realm_more.

Lemma t_placeholders_absent_witness :
  sample_t l10n_init "Set Series" (Some [("n", "$$"); ("m", "$'")]) None
  = Found (LString "Set Series").
Proof.
  apply (t_placeholders_absent Builtin sample_proto sample_member
           sample_reduce l10n_init "Set Series"
           [("n", "$$"); ("m", "$'")] None "Set Series");
    [reflexivity |].
  repeat constructor; by apply occursb_false.
Defined.

Lemma t_matched_text_values_witness :
  sample_t l10n_init "Hi ${n}, ${m}" (Some [("n", "$&"); ("m", "$&")]) None
  = Found (LString "Hi ${n}, ${m}").
Proof.
  apply (t_matched_text_values Builtin sample_proto sample_member
           sample_reduce l10n_init "Hi ${n}, ${m}"
           [("n", "$&"); ("m", "$&")] None "Hi ${n}, ${m}");
    [reflexivity |].
  by repeat constructor.
Defined.

(* ------------------------------------------------------------------ *)
(** ** More on the togglers *)
(* ------------------------------------------------------------------ *)

Section toggler_more.
Variable host : Host.
Implicit Types (w : World) (ed : JsValue) (blockId : Z)
  (o : gmap string JsValue).

Lemma getBlockAttr_keyless st blockId v :
  property_is st blockId "_attr" v → keyless v = true →
  spread (getBlockAttr st blockId) = ∅.
Proof.
  intros (b & p & Hb & Hf & Hv)%property_is_find Hk.
  unfold getBlockAttr. rewrite Hb. simpl. rewrite Hf. simpl. rewrite Hv.
  destruct v as [| |[]|n|s| |]; try done.
  - simpl. by destruct (n =? 0)%Z.
  - simpl in Hk. simpl. by rewrite Hk.
Qed.

(** X4.  A stored [_attr] that is no object (undefined, null, a boolean,
    a number, the empty string) counts as an empty map and is not kept:
    [setMultiCol] and [setSeries] persist the one-key map in its place and
    [clearLayout] asks for the deletion of [_attr]. *)
Theorem togglers_discard_primitive ed blockId w v :
  property_is (orca w) blockId "_attr" v →
  keyless v = true →
  let persist attr :=
    InvokeEditorCommand "core.editor.setProperties" VNull
      [VArr [VNum blockId];
       VArr [VObj (<["name" := VStr "_attr"]>
                    (<["value" := VObj attr]> (<["type" := VNum 0]> ∅)))]] in
  calls (setMultiCol host ed blockId w)
  = [persist (<["multi-col" := VNum 1]> ∅)] ∧
  calls (setSeries host ed blockId w)
  = [persist (<["serie" := VNum 1]> ∅)] ∧
  calls (clearLayout host ed blockId w)
  = [InvokeEditorCommand "core.editor.deleteProperties" VNull
       [VArr [VNum blockId]; VArr [VStr "_attr"]]].
Proof.
  intros Hp Hk persist.
  rewrite setMultiCol_run, setSeries_run, clearLayout_run. cbv zeta.
  by rewrite (getBlockAttr_keyless _ _ _ Hp Hk).
Qed.

(** X5.  On a block whose map already holds the key with value 1 the set
    operation still calls the host, and persists the map as it is. *)
Theorem set_again_persists_same ed blockId w o :
  attr_map (orca w) blockId o →
  let persist attr :=
    InvokeEditorCommand "core.editor.setProperties" VNull
      [VArr [VNum blockId];
       VArr [VObj (<["name" := VStr "_attr"]>
                    (<["value" := VObj attr]> (<["type" := VNum 0]> ∅)))]] in
  (o !! "multi-col" = Some (VNum 1) →
   calls (setMultiCol host ed blockId w) = [persist o]) ∧
  (o !! "serie" = Some (VNum 1) →
   calls (setSeries host ed blockId w) = [persist o]).
Proof.
  intros Ho persist. rewrite setMultiCol_run, setSeries_run.
  rewrite (attr_map_spread _ _ _ Ho).
  split; intros Hk; by rewrite insert_id.
Qed.

(** X6.  On a block whose non-empty map holds neither [multi-col] nor
    [serie], [clearLayout] is no no-op: it persists the map as it is. *)
Theorem clearLayout_without_layout ed blockId w o :
  attr_map (orca w) blockId o →
  o !! "multi-col" = None → o !! "serie" = None → o ≠ ∅ →
  calls (clearLayout host ed blockId w)
  = [InvokeEditorCommand "core.editor.setProperties" VNull
       [VArr [VNum blockId];
        VArr [VObj (<["name" := VStr "_attr"]>
                     (<["value" := VObj o]> (<["type" := VNum 0]> ∅)))]]].
Proof.
  intros Ho H1 H2 Hne. rewrite clearLayout_run. cbv zeta.
  rewrite (attr_map_spread _ _ _ Ho).
  rewrite (delete_id _ _ H1), (delete_id _ _ H2).
  destruct (Nat.eqb_spec (size o) 0) as [E|E]; [|done].
  by apply map_size_empty_iff in E.
Qed.

Lemma invoked_resolved c w :
  outcome (invoked host c w) = Returned VNull →
  ∃ v, (host c (orca w)).2 = Returned v.
Proof. unfold invoked. simpl. destruct (host c (orca w)).2; by eauto. Qed.

Lemma attr_map_exists st blockId o :
  attr_map st blockId o → o ≠ ∅ → is_Some (blocks st !! blockId).
Proof.
  intros [(b & ? & ? & ? & Hb & _)|[_ ->]] Hne; [by eexists |].
  by destruct Hne.
Qed.

Hypothesis contract : attr_contract host.

Lemma attr_map_after_set blockId attr w :
  is_Some (blocks (orca w) !! blockId) →
  outcome (invoked host (setProperties blockId attr) w) = Returned VNull →
  attr_map (orca (final (invoked host (setProperties blockId attr) w)))
    blockId attr ∧
  is_Some (blocks (orca (final (invoked host (setProperties blockId attr) w)))
             !! blockId).
Proof using contract.
  intros Hb [v Hv]%invoked_resolved.
  pose proof (attr_stored _ contract _ _ _ _ Hv Hb) as Hp.
  split; [by left |].
  destruct Hp as (b & ? & ? & ? & Hb' & _). by eexists.
Qed.

Lemma attr_map_after_delete blockId w :
  outcome (invoked host (deleteProperties blockId) w) = Returned VNull →
  attr_map (orca (final (invoked host (deleteProperties blockId) w)))
    blockId ∅.
Proof using contract.
  intros [v Hv]%invoked_resolved. right. split; [|done].
  apply (attr_deleted _ contract _ _ _ Hv).
Qed.

(** The state [clearLayout] leaves holds the reduced map. *)
Lemma attr_map_after_clear ed blockId w o :
  attr_map (orca w) blockId o →
  outcome (clearLayout host ed blockId w) = Returned VNull →
  attr_map (orca (final (clearLayout host ed blockId w))) blockId
    (delete "serie" (delete "multi-col" o)).
Proof using contract.
  intros Ho. rewrite clearLayout_run. cbv zeta.
  rewrite (attr_map_spread _ _ _ Ho).
  destruct (Nat.eqb_spec (size (delete "serie" (delete "multi-col" o))) 0)
    as [E|E]; intros Hr.
  - apply map_size_empty_iff in E. rewrite E.
    by apply attr_map_after_delete.
  - apply attr_map_after_set; [|done].
    apply (attr_map_exists _ _ _ Ho). intros ->. apply E.
    by rewrite !delete_empty, map_size_empty.
Qed.

(** X7.  With a host that stores what [setProperties] writes, the two set
    operations one after the other, in either order, end with a write of
    the prior map with both keys set to 1: neither clears the other. *)
Theorem set_both_keys ed blockId w o :
  is_Some (blocks (orca w) !! blockId) →
  attr_map (orca w) blockId o →
  let both := <["serie" := VNum 1]> (<["multi-col" := VNum 1]> o) in
  let persist attr :=
    InvokeEditorCommand "core.editor.setProperties" VNull
      [VArr [VNum blockId];
       VArr [VObj (<["name" := VStr "_attr"]>
                    (<["value" := VObj attr]> (<["type" := VNum 0]> ∅)))]] in
  (outcome (setMultiCol host ed blockId w) = Returned VNull →
   calls ((setMultiCol host ed blockId;; setSeries host ed blockId) w)
   = [persist (<["multi-col" := VNum 1]> o); persist both]) ∧
  (outcome (setSeries host ed blockId w) = Returned VNull →
   calls ((setSeries host ed blockId;; setMultiCol host ed blockId) w)
   = [persist (<["serie" := VNum 1]> o); persist both]).
Proof using contract.
  intros Hb Ho both persist. split; intros Hr.
  - rewrite (bind_returned _ _ _ VNull) by done. cbn [calls].
    rewrite setMultiCol_run in *. rewrite (attr_map_spread _ _ _ Ho) in *.
    destruct (attr_map_after_set _ _ _ Hb Hr) as [Ho' _].
    by rewrite setSeries_run, (attr_map_spread _ _ _ Ho').
  - rewrite (bind_returned _ _ _ VNull) by done. cbn [calls].
    rewrite setSeries_run in *. rewrite (attr_map_spread _ _ _ Ho) in *.
    destruct (attr_map_after_set _ _ _ Hb Hr) as [Ho' _].
    rewrite setMultiCol_run, (attr_map_spread _ _ _ Ho').
    unfold both. by rewrite insert_insert_ne.
Qed.

(** X8.  With such a host, [clearLayout] after [setMultiCol] makes the
    call it makes without the [setMultiCol]; and if the prior map held
    neither layout key, the block ends with the prior map again. *)
Theorem set_then_clear_restores ed blockId w o :
  is_Some (blocks (orca w) !! blockId) →
  attr_map (orca w) blockId o →
  outcome (setMultiCol host ed blockId w) = Returned VNull →
  let w1 := final (setMultiCol host ed blockId w) in
  calls (clearLayout host ed blockId w1) = calls (clearLayout host ed blockId w) ∧
  (o !! "multi-col" = None → o !! "serie" = None →
   outcome (clearLayout host ed blockId w1) = Returned VNull →
   attr_map (orca (final (clearLayout host ed blockId w1))) blockId o).
Proof using contract.
  intros Hb Ho Hr w1.
  assert (attr_map (orca w1) blockId (<["multi-col" := VNum 1]> o)) as Ho1.
  { unfold w1. rewrite setMultiCol_run in *.
    rewrite (attr_map_spread _ _ _ Ho) in *.
    by apply attr_map_after_set. }
  assert (delete "serie" (delete "multi-col" (<["multi-col" := VNum 1]> o))
          = delete "serie" (delete "multi-col" o)) as Hd
    by by rewrite delete_insert_eq.
  split.
  - rewrite !clearLayout_run. cbv zeta.
    rewrite (attr_map_spread _ _ _ Ho), (attr_map_spread _ _ _ Ho1).
    by rewrite Hd.
  - intros H1 H2 Hr1.
    pose proof (attr_map_after_clear ed blockId w1 _ Ho1 Hr1) as Hc.
    by rewrite Hd, (delete_id _ _ H1), (delete_id _ _ H2) in Hc.
Qed.

(** X9.  With such a host, each toggler repeated makes the same call
    twice: the second run finds what the first one left. *)
Theorem togglers_repeat ed blockId w o :
  attr_map (orca w) blockId o →
  (is_Some (blocks (orca w) !! blockId) →
   outcome (setMultiCol host ed blockId w) = Returned VNull →
   calls ((setMultiCol host ed blockId;; setMultiCol host ed blockId) w)
   = calls (setMultiCol host ed blockId w)
     ++ calls (setMultiCol host ed blockId w)) ∧
  (is_Some (blocks (orca w) !! blockId) →
   outcome (setSeries host ed blockId w) = Returned VNull →
   calls ((setSeries host ed blockId;; setSeries host ed blockId) w)
   = calls (setSeries host ed blockId w)
     ++ calls (setSeries host ed blockId w)) ∧
  (outcome (clearLayout host ed blockId w) = Returned VNull →
   calls ((clearLayout host ed blockId;; clearLayout host ed blockId) w)
   = calls (clearLayout host ed blockId w)
     ++ calls (clearLayout host ed blockId w)).
Proof using contract.
  intros Ho. split_and!.
  - intros Hb Hr. rewrite (bind_returned _ _ _ VNull) by done.
    cbn [calls]. f_equal.
    rewrite setMultiCol_run in Hr. rewrite !setMultiCol_run.
    rewrite (attr_map_spread _ _ _ Ho) in *.
    destruct (attr_map_after_set _ _ _ Hb Hr) as [Ho' _].
    rewrite (attr_map_spread _ _ _ Ho'). cbn [calls invoked].
    by rewrite insert_insert_eq.
  - intros Hb Hr. rewrite (bind_returned _ _ _ VNull) by done.
    cbn [calls]. f_equal.
    rewrite setSeries_run in Hr. rewrite !setSeries_run.
    rewrite (attr_map_spread _ _ _ Ho) in *.
    destruct (attr_map_after_set _ _ _ Hb Hr) as [Ho' _].
    rewrite (attr_map_spread _ _ _ Ho'). cbn [calls invoked].
    by rewrite insert_insert_eq.
  - intros Hr. rewrite (bind_returned _ _ _ VNull) by done.
    cbn [calls]. f_equal.
    pose proof (attr_map_after_clear ed blockId w o Ho Hr) as Ho'.
    remember (final (clearLayout host ed blockId w)) as w1 eqn:Ew1.
    clear Ew1. rewrite !clearLayout_run. cbv zeta.
    rewrite (attr_map_spread _ _ _ Ho), (attr_map_spread _ _ _ Ho').
    cbn [calls invoked].
    assert (∀ m : gmap string JsValue,
              delete "serie" (delete "multi-col"
                (delete "serie" (delete "multi-col" m)))
              = delete "serie" (delete "multi-col" m)) as ->; [|done].
    intros m. apply map_eq. intros k.
    destruct (decide (k = "serie")) as [->|];
      [by rewrite !lookup_delete_eq |].
    destruct (decide (k = "multi-col")) as [->|].
    + by rewrite !(lookup_delete_ne _ "serie"), !lookup_delete_eq.
    + by rewrite !lookup_delete_ne.
Qed.
End toggler_more.

Section sample_host_facts.
Lemma set_property_first p ps :
  ∃ pre post, set_property p ps = pre ++ p :: post ∧
              Forall (λ q, name q ≠ name p) pre.
Proof.
  induction ps as [|q ps (pre & post & E & Hpre)]; simpl.
  - by exists [], [].
  - destruct (String.eqb (name q) (name p)) eqn:Eq.
    + by exists [], ps.
    + exists (q :: pre), post. rewrite E. split; [done |].
      constructor; [by apply String.eqb_neq | done].
Qed.

Lemma delete_property_absent nm ps :
  Forall (λ q, name q ≠ nm) (delete_property nm ps).
Proof.
  unfold delete_property. induction ps as [|q ps IH]; simpl; [constructor |].
  destruct (String.eqb (name q) nm) eqn:E; simpl; [done |].
  constructor; [by apply String.eqb_neq | done].
Qed.

Lemma sample_host_attr_contract : attr_contract sample_host.
Proof.
  split.
  - intros st blockId attr v _ [blk Hblk].
    pose proof (set_property_first
                  {| name := "_attr"; type := 0; value := VObj attr |}
                  (properties blk)) as (pre & post & E & Hpre).
    exists {| properties := pre ++
                {| name := "_attr"; type := 0; value := VObj attr |} :: post |},
      pre, {| name := "_attr"; type := 0; value := VObj attr |}, post.
    split_and!; try done.
    change (alter (λ b, {| properties :=
                     set_property
                       {| name := "_attr"; type := 0; value := VObj attr |}
                       (properties b) |}) blockId (blocks st) !! blockId
            = Some {| properties := pre ++
                {| name := "_attr"; type := 0; value := VObj attr |} :: post |}).
    by rewrite lookup_alter_eq, Hblk, <- E.
  - intros st blockId v _ blk.
    change (alter (λ b, {| properties := delete_property "_attr" (properties b) |})
              blockId (blocks st) !! blockId = Some blk →
            Forall (λ q, name q ≠ "_attr") (properties blk)).
    rewrite lookup_alter_eq. destruct (blocks st !! blockId); [|done].
    intros [= <-]. apply delete_property_absent.
Defined.
End sample_host_facts.

Section toggler_more_witnesses.
Lemma sample_number_12 : property_is sample_state_more 12 "_attr" (VNum 5).
Proof.
  eexists _, [repr_of "table2"], _, [].
  split_and!; [reflexivity | reflexivity | | reflexivity | reflexivity].
  by repeat constructor.
Defined.

Lemma sample_attr_13 :
  attr_map sample_state_more 13 (<["customKey" := VStr "x"]> ∅).
Proof.
  left. eexists _, [repr_of "table2"], _, [].
  split_and!; [reflexivity | reflexivity | | reflexivity | reflexivity].
  by repeat constructor.
Defined.

Lemma sample_exists_9 : is_Some (blocks sample_state !! 9%Z).
Proof. eexists. reflexivity. Defined.

Lemma sample_exists_7 : is_Some (blocks sample_state !! 7%Z).
Proof. eexists. reflexivity. Defined.

Lemma sample_attr_9 : attr_map sample_state 9 ∅.
Proof. right. split; [exact sample_absent_9 | reflexivity]. Defined.

Lemma togglers_discard_primitive_witness :
  calls (setMultiCol sample_host VNull 12 sample_world_more)
  = [InvokeEditorCommand "core.editor.setProperties" VNull
     [VArr [VNum 12];
      VArr [VObj (<["name" := VStr "_attr"]>
                   (<["value" := VObj (<["multi-col" := VNum 1]> ∅)]>
                      (<["type" := VNum 0]> ∅)))]]] ∧
  calls (clearLayout sample_host VNull 12 sample_world_more)
  = [InvokeEditorCommand "core.editor.deleteProperties" VNull
       [VArr [VNum 12]; VArr [VStr "_attr"]]].
Proof.
  destruct (togglers_discard_primitive sample_host VNull 12 sample_world_more
              (VNum 5) sample_number_12 eq_refl) as (H1 & _ & H3).
  by split.
Defined.

Lemma set_again_persists_same_witness :
  calls (setMultiCol sample_host VNull 7 sample_world)
  = [InvokeEditorCommand "core.editor.setProperties" VNull
     [VArr [VNum 7];
      VArr [VObj (<["name" := VStr "_attr"]>
                   (<["value" := VObj (<["multi-col" := VNum 1]>
                                  (<["customKey" := VStr "x"]> ∅))]>
                      (<["type" := VNum 0]> ∅)))]]].
Proof.
  destruct (set_again_persists_same sample_host VNull 7 sample_world _
              sample_attr_7) as [H _].
  apply H. reflexivity.
Defined.

Lemma clearLayout_without_layout_witness :
  calls (clearLayout sample_host VNull 13 sample_world_more)
  = [InvokeEditorCommand "core.editor.setProperties" VNull
     [VArr [VNum 13];
      VArr [VObj (<["name" := VStr "_attr"]>
                   (<["value" := VObj (<["customKey" := VStr "x"]> ∅)]>
                      (<["type" := VNum 0]> ∅)))]]].
Proof.
  apply (clearLayout_without_layout sample_host VNull 13 sample_world_more _
           sample_attr_13); [reflexivity | reflexivity |].
  intros E. apply (f_equal (.!! "customKey")) in E.
  vm_compute in E. discriminate E.
Defined.

Lemma set_both_keys_witness :
  calls ((setMultiCol sample_host VNull 9;; setSeries sample_host VNull 9)
           sample_world)
  = [InvokeEditorCommand "core.editor.setProperties" VNull
     [VArr [VNum 9];
      VArr [VObj (<["name" := VStr "_attr"]>
                   (<["value" := VObj (<["multi-col" := VNum 1]> ∅)]>
                      (<["type" := VNum 0]> ∅)))]];
     InvokeEditorCommand "core.editor.setProperties" VNull
       [VArr [VNum 9];
        VArr [VObj (<["name" := VStr "_attr"]>
                     (<["value" := VObj (<["serie" := VNum 1]>
                                  (<["multi-col" := VNum 1]> ∅))]>
                        (<["type" := VNum 0]> ∅)))]]].
Proof.
  destruct (set_both_keys sample_host sample_host_attr_contract VNull 9
              sample_world ∅ sample_exists_9 sample_attr_9) as [H _].
  apply H. reflexivity.
Defined.

Lemma set_then_clear_restores_witness :
  attr_map
    (orca (final (clearLayout sample_host VNull 9
                    (final (setMultiCol sample_host VNull 9 sample_world)))))
    9 ∅.
Proof.
  destruct (set_then_clear_restores sample_host sample_host_attr_contract
              VNull 9 sample_world ∅ sample_exists_9 sample_attr_9 eq_refl)
    as [_ H].
  apply H; reflexivity.
Defined.

Lemma togglers_repeat_witness :
  calls ((clearLayout sample_host VNull 7;; clearLayout sample_host VNull 7)
           sample_world)
  = [InvokeEditorCommand "core.editor.setProperties" VNull
     [VArr [VNum 7];
      VArr [VObj (<["name" := VStr "_attr"]>
                   (<["value" := VObj (<["customKey" := VStr "x"]> ∅)]>
                      (<["type" := VNum 0]> ∅)))]];
     InvokeEditorCommand "core.editor.setProperties" VNull
       [VArr [VNum 7];
        VArr [VObj (<["name" := VStr "_attr"]>
                     (<["value" := VObj (<["customKey" := VStr "x"]> ∅)]>
                        (<["type" := VNum 0]> ∅)))]]].
Proof.
  destruct (togglers_repeat sample_host sample_host_attr_contract VNull 7
              sample_world _ sample_attr_7) as (_ & _ & H).
  rewrite H; reflexivity.
Defined.
End toggler_more_witnesses.

(* ------------------------------------------------------------------ *)
(** ** More on loading and unloading *)
(* ------------------------------------------------------------------ *)

Section load_more.
Variable host : Host.
Variable zhCN : gmap string string.
Implicit Types (w : World) (nm key : string).

Lemma load_plugin nm w :
  plugin (final (load host zhCN nm w))
  = {| pluginName := Some nm;
       l10n := setupL10N (locale (orca w)) (<["zh-CN" := zhCN]> ∅) |}.
Proof. by rewrite load_run. Qed.

Lemma label_at_locale loc key :
  label_at loc zhCN key
  = if decide (loc = "zh-CN") then default key (zhCN !! key) else key.
Proof.
  unfold label_at, t, template_of, setupL10N. simpl.
  destruct (decide (loc = "zh-CN")) as [->|Hne].
  - by rewrite lookup_insert_eq.
  - by rewrite lookup_insert_ne, lookup_empty.
Qed.

(** X11.  The host calls of [load] are, in this order, some of the four
    registrations (under [`${pluginName}.multi-col`], [.series], [.none]
    and [.menu], the editor commands bound to [setMultiCol], [setSeries]
    and [clearLayout] with labels translated for the host's locale), then
    the CSS injection and the log line. *)
Theorem load_calls_in_order nm w :
  ∃ regs,
    regs `sublist_of` load_registrations (locale (orca w)) zhCN nm ∧
    calls (load host zhCN nm w)
    = regs ++ [InjectCSSResource (nm +:+ "/dist/layouts.css") nm;
               ConsoleLog (nm +:+ " loaded.")].
Proof.
  rewrite load_run. cbv zeta. cbn [calls].
  set (p0 := {| pluginName := Some nm; l10n := _ |}).
  set (r1 := register host ".multi-col" _ _ _).
  set (r2 := register host ".series" _ _ _).
  set (r3 := register host ".none" _ _ _).
  set (r4 := register_menu host ".menu" _).
  exists (calls r1 ++ calls r2 ++ calls r3 ++ calls r4).
  split; [|by rewrite <- !app_assoc].
  assert (plugin (final r1) = p0) as P1 by apply register_plugin.
  assert (plugin (final r2) = p0) as P2
    by (unfold r2; by rewrite register_plugin).
  assert (plugin (final r3) = p0) as P3
    by (unfold r3; by rewrite register_plugin).
  unfold r4. rewrite register_menu_run. cbv zeta. rewrite P3.
  unfold r3. rewrite register_run. cbv zeta. rewrite P2.
  unfold r2. rewrite register_run. cbv zeta. rewrite P1.
  unfold r1. rewrite register_run. cbv zeta.
  unfold load_registrations, label_at. cbn [plugin l10n name_text pluginName
                                            default p0].
  do 4 (destruct (bool_decide _)); cbn [calls app]; by repeat constructor.
Qed.

Lemma unload_run w :
  calls (unload host w) = unload_calls (name_text (plugin w)) ∧
  plugin (final (unload host w)) = plugin w ∧
  outcome (unload host w) = Returned tt.
Proof. done. Qed.

(** X12.  [unload] after [load] takes back what [load] did: every
    registration [load] made is unregistered under the same identifier and
    the CSS resources are removed under the role of the injection. *)
Theorem unload_undoes_load nm w c u :
  c ∈ calls (load host zhCN nm w) →
  undone_by c = Some u →
  u ∈ calls (unload host (final (load host zhCN nm w))).
Proof.
  destruct (unload_run (final (load host zhCN nm w))) as [-> _].
  rewrite load_plugin. cbn [name_text pluginName default].
  destruct (load_calls_in_order nm w) as (regs & Hsub & ->).
  intros Hc Hu. apply elem_of_app in Hc as [Hc|Hc].
  - apply (elem_of_sublist _ _ _ Hc) in Hsub. clear Hc. rename Hsub into Hc.
    unfold load_registrations, unload_calls in *.
    repeat (apply elem_of_cons in Hc as [->|Hc];
            [injection Hu as <-; set_solver |]).
    by apply elem_of_nil in Hc.
  - unfold unload_calls.
    repeat (apply elem_of_cons in Hc as [->|Hc];
            [simpl in Hu; try discriminate Hu; try injection Hu as <-;
             set_solver |]).
    by apply elem_of_nil in Hc.
Qed.

(** X13.  The shorter entry point leaves the module variables as the full
    [load] does, and its only host call is the log line; it registers and
    injects nothing, and its [unload] only logs. *)
Theorem minimal_load_same_setup nm w :
  plugin (final (Minimal.load host zhCN nm w))
  = plugin (final (load host zhCN nm w)) ∧
  calls (Minimal.load host zhCN nm w) = [ConsoleLog (nm +:+ " loaded.")] ∧
  calls (Minimal.unload host (final (Minimal.load host zhCN nm w)))
  = [ConsoleLog (nm +:+ " unloaded.")].
Proof. rewrite load_plugin. done. Qed.
End load_more.

Lemma unload_undoes_load_witness :
  UnregisterEditorCommand "tl.series"
  ∈ calls (unload sample_host
             (final (load sample_host sample_zhCN "tl" sample_world))).
Proof.
  apply (unload_undoes_load sample_host sample_zhCN "tl" sample_world
           (RegisterEditorCommand "tl.series" SetSeries "Set Series"));
    [|reflexivity].
  vm_compute. apply list_elem_of_further, list_elem_of_here.
Defined.

Section load_lookup.
Variable host : Host.
Variable zhCN : gmap string string.
Variable Other : Type.
Variable proto : string → Lookup Other.
Variable member : Looked Other → string → Lookup Other.
Variable reduce_other : Other → list (string * string) → Lookup Other.

(** X10.  After [load], for a key that is no member of [Object.prototype]
    and a host locale that is [zh-CN] or no member of [Object.prototype]
    either: [t(key)] is the entry of the built-in Chinese table when the
    locale was [zh-CN] at load time and the table has one, and the key
    otherwise. *)
Theorem load_then_t nm w key :
  proto key = Nullish →
  (locale (orca w) ≠ "zh-CN" → proto (locale (orca w)) = Nullish) →
  Realm.t Other proto member reduce_other
    (l10n (plugin (final (load host zhCN nm w)))) key None None
  = Found (LString (if decide (locale (orca w) = "zh-CN")
                    then default key (zhCN !! key) else key)).
Proof.
  intros Hk Hl. rewrite load_plugin, realm_t_own.
  - f_equal. f_equal. apply label_at_locale.
  - unfold Realm.own_names, setupL10N. simpl.
    destruct (decide (locale (orca w) = "zh-CN")) as [->|Hne].
    + rewrite lookup_insert_eq. by right.
    + rewrite lookup_insert_ne, lookup_empty by done. by apply Hl.
Qed.
End load_lookup.

Lemma load_then_t_witness :
  sample_t (l10n (plugin (final (load sample_host sample_zhCN "tl"
                                   sample_world))))
    "Series" None None
  = Found (LString "xi lie").
Proof.
  apply (load_then_t sample_host sample_zhCN Builtin sample_proto
           sample_member sample_reduce "tl" sample_world "Series");
    [reflexivity |].
  intros Hne. by destruct Hne.
Defined.
